(** * ralph_status.py: a shallow embedding of the Ralph workspace checkup tool

    Source: .agents/skills/workspace-ralph-orchestrator/scripts/ralph_status.py

    Model overview.
    - Strings are byte strings ([String.string]); the UTF-8 emoji of the report
      are kept as their bytes, so "byte-identical" is literal.
    - The filesystem is a tree of [entry]; absolute paths are lists of
      components ([[]] is "/").
    - External processes are an oracle [sys_run] giving what
      [subprocess.run] produced for a command and a working directory.
    - [json.load] (Python standard library) is an oracle [sys_json_load];
      [None] stands for [JSONDecodeError].
    - Code that runs commands or may raise lives in the monad [M]: the trace
      of commands issued (in order) and either a value or an exception. *)

From Stdlib Require Import String Ascii List Bool Arith Lia ZArith.
From Stdlib Require Import Sorting.Sorted Sorting.Permutation.
Import ListNotations.
Open Scope list_scope.
Open Scope string_scope.
Set Warnings "-register-all".

(** ** Python string helpers *)

Definition chr (n : nat) : string := String (ascii_of_nat n) EmptyString.
Definition nl : string := chr 10.
Definition LF : ascii := ascii_of_nat 10.
Definition CR : ascii := ascii_of_nat 13.

(** [str.isspace] on one byte: \t \n \v \f \r, \x1c-\x1f and the space. *)
Definition is_space (c : ascii) : bool :=
  let n := nat_of_ascii c in
  (Nat.leb 9 n && Nat.leb n 13) || (Nat.leb 28 n && Nat.leb n 32).

Fixpoint lstrip (s : string) : string :=
  match s with
  | EmptyString => EmptyString
  | String c r => if is_space c then lstrip r else s
  end.

Fixpoint rstrip (s : string) : string :=
  match s with
  | EmptyString => EmptyString
  | String c r =>
      let r' := rstrip r in
      if (r' =? "") && is_space c then EmptyString else String c r'
  end.

(** [str.strip()] *)
Definition strip (s : string) : string := lstrip (rstrip s).

(** [str.split()] (no argument): maximal runs of non-whitespace. *)
Fixpoint split_ws_from (cur : string) (s : string) : list string :=
  match s with
  | EmptyString => if cur =? "" then [] else [cur]
  | String c r =>
      if is_space c then
        (if cur =? "" then split_ws_from "" r else cur :: split_ws_from "" r)
      else split_ws_from (cur ++ String c "") r
  end.

Definition split_ws (s : string) : list string := split_ws_from "" s.

(** [str.split('\n')] *)
Fixpoint split_nl_from (cur : string) (s : string) : list string :=
  match s with
  | EmptyString => [cur]
  | String c r =>
      if Ascii.eqb c LF then cur :: split_nl_from "" r
      else split_nl_from (cur ++ String c "") r
  end.

Definition split_nl (s : string) : list string := split_nl_from "" s.

(** Text-mode reading applies universal newlines: \r\n and \r become \n. *)
Fixpoint univ_nl (s : string) : string :=
  match s with
  | EmptyString => EmptyString
  | String c r =>
      if Ascii.eqb c CR then
        match r with
        | String c2 r2 =>
            if Ascii.eqb c2 LF then String LF (univ_nl r2)
            else String LF (univ_nl r)
        | EmptyString => String LF EmptyString
        end
      else String c (univ_nl r)
  end.

(** [f.readlines()]: lines keep their terminating \n. *)
Fixpoint readlines_from (cur : string) (s : string) : list string :=
  match s with
  | EmptyString => if cur =? "" then [] else [cur]
  | String c r =>
      if Ascii.eqb c LF then (cur ++ nl) :: readlines_from "" r
      else readlines_from (cur ++ String c "") r
  end.

Definition readlines (s : string) : list string := readlines_from "" s.

(** Python slices [l[-n:]] and [l[:n]]. *)
Definition lastn {A} (n : nat) (l : list A) : list A := skipn (length l - n) l.

(** [str(n)] for a natural number. *)
Fixpoint digits_aux (fuel n : nat) (acc : string) : string :=
  match fuel with
  | O => acc
  | S f =>
      let acc' := String (ascii_of_nat (48 + n mod 10)) acc in
      if Nat.ltb n 10 then acc' else digits_aux f (n / 10) acc'
  end.

Definition nat_str (n : nat) : string := digits_aux (S n) n "".

(** ** JSON values as [json.load] returns them *)

(** [JNum r] holds the Python [str()] of the parsed int or float. *)
Inductive json : Type :=
| JNull
| JBool (b : bool)
| JNum (repr : string)
| JStr (s : string)
| JArr (l : list json)
| JObj (kvs : list (string * json)).

(** Python truth value. *)
Definition py_truthy (v : json) : bool :=
  match v with
  | JNull => false
  | JBool b => b
  | JNum r => negb ((r =? "0") || (r =? "0.0") || (r =? "-0.0"))
  | JStr s => negb (s =? "")
  | JArr l => match l with [] => false | _ => true end
  | JObj o => match o with [] => false | _ => true end
  end.

(** [d.get(k)] on a dict *)
Fixpoint py_get (o : list (string * json)) (k : string) : option json :=
  match o with
  | [] => None
  | (k', v) :: r => if k' =? k then Some v else py_get r k
  end.

(** [repr()] of a str: single quotes, double quotes when the text holds a
    single quote and no double quote. *)
Definition hex_digit (n : nat) : string :=
  if Nat.ltb n 10 then chr (48 + n) else chr (87 + n).

Fixpoint repr_body (q : ascii) (s : string) : string :=
  match s with
  | EmptyString => EmptyString
  | String c r =>
      let n := nat_of_ascii c in
      let e :=
        if Ascii.eqb c "\"%char then "\\"
        else if Ascii.eqb c q then "\" ++ String q ""
        else if Nat.eqb n 9 then "\t"
        else if Nat.eqb n 10 then "\n"
        else if Nat.eqb n 13 then "\r"
        else if Nat.ltb n 32 || Nat.eqb n 127
             then "\x" ++ hex_digit (n / 16) ++ hex_digit (n mod 16)
        else String c "" in
      e ++ repr_body q r
  end.

Fixpoint has_char (c : ascii) (s : string) : bool :=
  match s with
  | EmptyString => false
  | String c' r => Ascii.eqb c c' || has_char c r
  end.

Definition py_str_repr (s : string) : string :=
  let dq := ascii_of_nat 34 in
  let q := if has_char "'"%char s && negb (has_char dq s)
           then dq else "'"%char in
  String q (repr_body q s ++ String q "").

(** [str()] and [repr()] of a JSON value (f-strings use [str()]). *)
Fixpoint py_repr (v : json) : string :=
  match v with
  | JNull => "None"
  | JBool b => if b then "True" else "False"
  | JNum r => r
  | JStr s => py_str_repr s
  | JArr l =>
      "[" ++ String.concat ", " (map py_repr l) ++ "]"
  | JObj o =>
      "{" ++ String.concat ", "
               (map (fun kv => py_str_repr (fst kv) ++ ": " ++ py_repr (snd kv)) o)
      ++ "}"
  end.

Definition py_str (v : json) : string :=
  match v with
  | JStr s => s
  | _ => py_repr v
  end.

(** [len()]: defined on str, list and dict; [TypeError] otherwise. *)
Inductive exn : Type :=
| IndexError
| AttributeError
| TypeError
| NotADirectoryError.

Inductive result (A : Type) : Type :=
| Ok (a : A)
| Exc (e : exn).
Arguments Ok {A} a.
Arguments Exc {A} e.

Definition py_len (v : json) : result nat :=
  match v with
  | JStr s => Ok (String.length s)
  | JArr l => Ok (length l)
  | JObj o => Ok (length o)
  | _ => Exc TypeError
  end.

(** ** Filesystem *)

Definition path := list string.

(** [Path.parent]: the parent of "/" is "/". *)
Definition parent (p : path) : path := removelast p.

Definition path_eqb (p q : path) : bool :=
  if list_eq_dec string_dec p q then true else false.

(** [str(Path)] of an absolute path. *)
Definition path_str (p : path) : string :=
  match p with
  | [] => "/"
  | _ => String.concat "" (map (fun c => "/" ++ c) p)
  end.

(** A file's content as read in text mode, or a read that raises
    (permission denied, undecodable bytes). *)
Inductive file_data : Type :=
| Text (s : string)
| Unreadable.

Inductive entry : Type :=
| EFile (name : string) (data : file_data)
| EDir (name : string) (children : list entry).

Definition entry_name (e : entry) : string :=
  match e with EFile n _ => n | EDir n _ => n end.

Inductive node : Type :=
| NFile (data : file_data)
| NDir (children : list entry).

Fixpoint find_child (n : string) (ch : list entry) : option entry :=
  match ch with
  | [] => None
  | e :: r => if entry_name e =? n then Some e else find_child n r
  end.

(** Resolve a path below a directory whose children are [ch]. *)
Fixpoint lookup (ch : list entry) (p : path) : option node :=
  match p with
  | [] => Some (NDir ch)
  | c :: rest =>
      match find_child c ch with
      | None => None
      | Some (EFile _ d) => match rest with [] => Some (NFile d) | _ => None end
      | Some (EDir _ ch') => lookup ch' rest
      end
  end.

(** [Path.exists()] and [Path.is_dir()]. *)
Definition path_exists (fs : list entry) (p : path) : bool :=
  match lookup fs p with Some _ => true | None => false end.

Definition is_dir (fs : list entry) (p : path) : bool :=
  match lookup fs p with Some (NDir _) => true | _ => false end.

(** ** Commands, exceptions and the report monad *)

(** What [subprocess.run(cmd, shell=True, capture_output=True, text=True,
    timeout=5)] does: the process completes with some exit status (a missing
    binary under the shell is status 127), [TimeoutExpired] is raised, or
    some other exception is raised (its [str()] given). *)
Inductive proc_outcome : Type :=
| Completed (returncode : Z) (stdout : string)
| TimeoutExpired
| Raised (message : string).

Definition command := (string * option path)%type.

Record system : Type := {
  sys_fs : list entry;
  sys_run : string -> option path -> proc_outcome;
  sys_json_load : string -> option json
}.

(** Everything [format_report] reads: clock ([strftime] output), host name,
    [sys.version.split()[0]], and the system snapshot. *)
Record env : Type := {
  env_now : string;
  env_host : string;
  env_python : string;
  env_sys : system
}.

Definition M (A : Type) : Type := (list command * result A)%type.

Definition ret {A} (a : A) : M A := ([], Ok a).
Definition raise {A} (x : exn) : M A := ([], Exc x).
Definition lift {A} (r : result A) : M A := ([], r).

Definition bind {A B} (m : M A) (k : A -> M B) : M B :=
  let (t1, r) := m in
  match r with
  | Ok a => let (t2, r2) := k a in ((t1 ++ t2)%list, r2)
  | Exc x => (t1, Exc x)
  end.

Notation "x <- m ;; k" := (bind m (fun x => k))
  (at level 61, m at next level, right associativity).

(** ** run_cmd *)

Definition run_cmd_value (o : proc_outcome) : string :=
  match o with
  | Completed _ out => strip out
  | TimeoutExpired => "[timeout]"
  | Raised msg => "[error: " ++ msg ++ "]"
  end.

Definition run_cmd (sy : system) (cmd : string) (cwd : option path) : M string :=
  ([(cmd, cwd)], Ok (run_cmd_value (sys_run sy cmd cwd))).

(** ** get_ralph_status and get_session_log *)

(** [None] of the source is the JSON [null]: both are Python's [None]. *)
Definition get_ralph_status (sy : system) (spec_dir : path) : json :=
  let progress_file := (spec_dir ++ [".ralph"; "progress.json"])%list in
  if negb (path_exists (sys_fs sy) progress_file) then JNull
  else match lookup (sys_fs sy) progress_file with
       | Some (NFile (Text s)) =>
           match sys_json_load sy (univ_nl s) with
           | Some v => v
           | None => JNull
           end
       | _ => JNull
       end.

Definition get_session_log (sy : system) (spec_dir : path) : list string :=
  let log_file := (spec_dir ++ [".ralph"; "session.log"])%list in
  if negb (path_exists (sys_fs sy) log_file) then []
  else match lookup (sys_fs sy) log_file with
       | Some (NFile (Text s)) => lastn 10 (readlines (univ_nl s))
       | _ => []
       end.

(** ** get_git_info *)

(** The [while repo_root != repo_root.parent] loop, run for at most [fuel]
    iterations ([None]: still looping). *)
Fixpoint find_repo_root (fs : list entry) (fuel : nat) (repo_root : path)
  : option path :=
  match fuel with
  | O => None
  | S f =>
      if path_eqb repo_root (parent repo_root) then Some repo_root
      else if path_exists fs (repo_root ++ [".git"])%list then Some repo_root
      else find_repo_root fs f (parent repo_root)
  end.

Record git_info : Type := {
  gi_branch : string;
  gi_recent_commits : list string;
  gi_status : string
}.

Definition git_branch_cmd := "git rev-parse --abbrev-ref HEAD".
Definition git_log_cmd := "git log --oneline -5 2>/dev/null || echo 'no commits'".
Definition git_status_cmd := "git status --short".

(** The empty dict [{}] is [None]. The loop is given [length + 1] rounds,
    which [find_repo_root_terminates] shows to be enough. *)
Definition get_git_info (sy : system) (spec_dir : path) : M (option git_info) :=
  match find_repo_root (sys_fs sy) (S (length spec_dir)) spec_dir with
  | None => ret None
  | Some repo_root =>
      if path_exists (sys_fs sy) (repo_root ++ [".git"])%list then
        branch <- run_cmd sy git_branch_cmd (Some repo_root) ;;
        commits <- run_cmd sy git_log_cmd (Some repo_root) ;;
        status <- run_cmd sy git_status_cmd (Some repo_root) ;;
        ret (Some {| gi_branch := branch;
                     gi_recent_commits := split_nl commits;
                     gi_status := status |})
      else ret None
  end.

(** ** get_resource_usage *)

(** [d[k] = v] on an insertion-ordered dict. *)
Fixpoint dict_set {V} (d : list (string * V)) (k : string) (v : V)
  : list (string * V) :=
  match d with
  | [] => [(k, v)]
  | (k', v') :: r => if k' =? k then (k', v) :: r else (k', v') :: dict_set r k v
  end.

Definition du_cmd (nm_dir : path) : string := "du -sh '" ++ path_str nm_dir ++ "'".

(** [run_cmd(...).split()[0]] *)
Definition first_word (out : string) : M string :=
  match split_ws out with
  | [] => raise IndexError
  | w :: _ => ret w
  end.

(** The [for service_dir in services_dir.iterdir()] loop. *)
Fixpoint resource_loop (sy : system) (services_dir : path) (names : list string)
  (resources : list (string * string)) : M (list (string * string)) :=
  match names with
  | [] => ret resources
  | n :: ns =>
      let service_dir := (services_dir ++ [n])%list in
      if is_dir (sys_fs sy) service_dir then
        let nm_dir := (service_dir ++ ["node_modules"])%list in
        if path_exists (sys_fs sy) nm_dir then
          out <- run_cmd sy (du_cmd nm_dir) None ;;
          size <- first_word out ;;
          resource_loop sy services_dir ns (dict_set resources n size)
        else resource_loop sy services_dir ns resources
      else resource_loop sy services_dir ns resources
  end.

(** [iterdir()] on a plain file raises [NotADirectoryError]. *)
Definition get_resource_usage (sy : system) (spec_dir : path)
  : M (list (string * string)) :=
  let services_dir := (parent (parent spec_dir) ++ ["services"])%list in
  if path_exists (sys_fs sy) services_dir then
    match lookup (sys_fs sy) services_dir with
    | Some (NDir ch) => resource_loop sy services_dir (map entry_name ch) []
    | _ => raise NotADirectoryError
    end
  else ret [].

(** ** check_docker_status and check_system_deps *)

(** The Python literal ['\\t'] is a backslash followed by [t]; so is the
    Rocq literal below. *)
Definition docker_cmd :=
  "docker ps -a --format 'table {{.Names}}\t{{.Status}}\t{{.Size}}' 2>/dev/null".

Definition docker_placeholder := "Docker not available or not running".

Record docker_info : Type := { containers : string }.

Definition check_docker_status (sy : system) : M docker_info :=
  result <- run_cmd sy docker_cmd None ;;
  if negb (result =? "") && negb (String.prefix "[" result)
  then ret {| containers := result |}
  else ret {| containers := docker_placeholder |}.

Record dep_info : Type := { available : bool; dep_path : string }.

Definition which_cmd := "which timeout".

Definition check_system_deps (sy : system) : M (list (string * dep_info)) :=
  a <- run_cmd sy which_cmd None ;;
  p <- run_cmd sy which_cmd None ;;
  ret [("timeout", {| available := negb (a =? ""); dep_path := p |})].

(** ** format_report *)

Definition title_line := "# Ralph Workspace Spec Checkup".

Definition header_lines (e : env) : list string :=
  [ title_line;
    nl ++ "**Generated:** " ++ env_now e;
    "**Host:** " ++ env_host e;
    "**Python:** " ++ env_python e ].

Definition no_specs_line := nl ++ "⚠️ **No Ralph specs found in workspace**".

Definition found_line (n : nat) := nl ++ "## Found " ++ nat_str n ++ " Ralph Spec(s)".

(** [spec_dir.relative_to(spec_dir.parent.parent.parent)] *)
Definition spec_heading (spec_dir : path) : string :=
  let rel := lastn 3 spec_dir in
  nl ++ "### " ++ match rel with [] => "." | _ => String.concat "/" rel end.

Definition progress_heading := nl ++ "**Ralph Progress:**".

Definition dget (o : list (string * json)) (k : string) (d : json) : json :=
  match py_get o k with Some v => v | None => d end.

(** The [if ralph_status:] block. [.get] on a non-dict raises
    [AttributeError]; [len] on a non-sized value raises [TypeError]. *)
Definition progress_lines (ralph_status : json) : result (list string) :=
  if py_truthy ralph_status then
    match ralph_status with
    | JObj o =>
        let l1 := [ progress_heading;
                    "- Status: `" ++ py_str (dget o "status" (JStr "unknown")) ++ "`";
                    "- Current Task: `" ++ py_str (dget o "current_task" (JStr "none")) ++ "`" ] in
        match py_len (dget o "completed_tasks" (JArr [])) with
        | Exc x => Exc x
        | Ok ncompleted =>
            let l2 := ["- Completed: " ++ nat_str ncompleted ++ " tasks"] in
            let l3 := if match dget o "status" JNull with
                         | JStr s => s =? "blocked" | _ => false end
                      then ["- 🚫 BLOCKED: " ++ py_str (dget o "blocked_reason" (JStr "unknown"))]
                      else [] in
            let failed := dget o "failed_tasks" JNull in
            let l4 := if py_truthy failed
                      then match py_len failed with
                           | Ok nf => Ok ["- Failed Tasks: " ++ nat_str nf]
                           | Exc x => Exc x
                           end
                      else Ok [] in
            match l4 with
            | Exc x => Exc x
            | Ok l4 =>
                let last_update := dget o "last_updated" (JStr "never") in
                let l5 := ["- Last Updated: `" ++ py_str last_update ++ "`"] in
                Ok (l1 ++ l2 ++ l3 ++ l4 ++ l5)%list
            end
        end
    | _ => Exc AttributeError
    end
  else Ok [].

Definition session_heading := nl ++ "**Recent Session Activity:**".

Definition session_lines (verbose : bool) (session_log : list string) : list string :=
  match session_log with
  | [] => []
  | _ => if verbose
         then session_heading :: map (fun l => "  " ++ rstrip l) (lastn 5 session_log)
         else []
  end.

Definition git_lines (gi : option git_info) : list string :=
  match gi with
  | None => []
  | Some g =>
      let branch_l := if gi_branch g =? "" then []
                      else ["- Branch: `" ++ gi_branch g ++ "`"] in
      let commits_l :=
        match gi_recent_commits g with
        | [] => []
        | cs => "- Recent Commits:"
                :: flat_map (fun c => if strip c =? "" then []
                                      else ["  - " ++ rstrip c]) (firstn 3 cs)
        end in
      let status_l :=
        if gi_status g =? "" then []
        else ["- Uncommitted Changes:" ++ nl ++ "```" ++ nl ++ gi_status g ++ nl ++ "```"] in
      (nl ++ "**Git Status:**") :: app branch_l (app commits_l status_l)
  end.

Definition resource_lines (verbose : bool) (resources : list (string * string))
  : list string :=
  match resources with
  | [] => []
  | _ => if verbose
         then (nl ++ "**Disk Usage:**")
                :: map (fun kv => "- " ++ fst kv ++ ": " ++ snd kv) resources
         else []
  end.

(** One iteration of [for spec_dir in specs]. *)
Definition spec_section (sy : system) (verbose : bool) (spec_dir : path)
  : M (list string) :=
  pl <- lift (progress_lines (get_ralph_status sy spec_dir)) ;;
  let sl := session_lines verbose (get_session_log sy spec_dir) in
  gi <- get_git_info sy spec_dir ;;
  res <- get_resource_usage sy spec_dir ;;
  ret (spec_heading spec_dir :: pl ++ sl ++ git_lines gi ++ resource_lines verbose res)%list.

Fixpoint spec_sections (sy : system) (verbose : bool) (specs : list path)
  : M (list string) :=
  match specs with
  | [] => ret []
  | p :: ps =>
      l <- spec_section sy verbose p ;;
      ls <- spec_sections sy verbose ps ;;
      ret (l ++ ls)%list
  end.

Definition dep_lines (deps : list (string * dep_info)) : list string :=
  flat_map (fun di =>
    ("- " ++ fst di ++ ": " ++
       (if available (snd di) then "✅ Available" else "❌ Missing"))
    :: (if dep_path (snd di) =? "" then []
        else ["  Path: `" ++ dep_path (snd di) ++ "`"])) deps.

Definition system_diagnostics (sy : system) : M (list string) :=
  docker <- check_docker_status sy ;;
  deps <- check_system_deps sy ;;
  ret (app [ nl ++ "## System Diagnostics";
             nl ++ "**Docker Status:**";
             "```" ++ nl ++ containers docker ++ nl ++ "```";
             nl ++ "**System Dependencies:**" ] (dep_lines deps)).

Definition format_report_lines (e : env) (specs : list path) (verbose : bool)
  : M (list string) :=
  match specs with
  | [] => ret (app (header_lines e) [no_specs_line])
  | _ =>
      body <- spec_sections (env_sys e) verbose specs ;;
      diag <- (if verbose then system_diagnostics (env_sys e) else ret []) ;;
      ret (app (header_lines e) (found_line (length specs) :: app body diag))
  end.

Definition format_report (e : env) (specs : list path) (verbose : bool) : M string :=
  lines <- format_report_lines e specs verbose ;;
  ret (String.concat nl lines).

(** ** scan_specs *)

(** Every path strictly below [pre] whose last component is [specs], as
    [rglob("specs")] yields them (files included; the root itself is not
    matched since the pattern is relative to it). *)
Fixpoint rglob_entry (pre : path) (e : entry) : list path :=
  match e with
  | EFile n _ => if n =? "specs" then [(pre ++ [n])%list] else []
  | EDir n ch =>
      app (if n =? "specs" then [(pre ++ [n])%list] else [])
          (flat_map (rglob_entry (pre ++ [n])%list) ch)
  end.

Definition rglob_specs (fs : list entry) (workspace : path) : list path :=
  match lookup fs workspace with
  | Some (NDir ch) => flat_map (rglob_entry workspace) ch
  | _ => []
  end.

(** [PurePath.__lt__]: lexicographic order on the components. *)
Fixpoint path_leb (p q : path) : bool :=
  match p, q with
  | [], _ => true
  | _ :: _, [] => false
  | a :: p', b :: q' =>
      match String.compare a b with
      | Lt => true
      | Gt => false
      | Eq => path_leb p' q'
      end
  end.

Fixpoint insert_path (x : path) (l : list path) : list path :=
  match l with
  | [] => [x]
  | y :: r => if path_leb x y then x :: y :: r else y :: insert_path x r
  end.

(** [sorted()] *)
Fixpoint sort_paths (l : list path) : list path :=
  match l with
  | [] => []
  | x :: r => insert_path x (sort_paths r)
  end.

(** The workspace path is taken as already expanded and resolved. *)
Definition scan_specs (fs : list entry) (workspace : path) : list path :=
  let specs :=
    flat_map (fun item =>
      if is_dir fs item then
        match lookup fs item with
        | Some (NDir ch) =>
            flat_map (fun n =>
              let spec_dir := (item ++ [n])%list in
              if is_dir fs spec_dir && path_exists fs (spec_dir ++ [".ralph"])%list
              then [spec_dir] else []) (map entry_name ch)
        | _ => []
        end
      else []) (rglob_specs fs workspace) in
  sort_paths specs.

(** ** Concrete workspaces *)

Definition dir := EDir.
Definition ralph_dir := EDir ".ralph" [].

Definition fs_two_specs : list entry :=
  [ dir "w"
      [ dir "specs" [ dir "b" [ralph_dir]; dir "a" [ralph_dir]; dir "c" [] ];
        dir "nested" [ dir "specs" [ dir "x" [ralph_dir] ] ] ] ].

(** ** Auxiliary definitions and sample workspaces *)

Definition is_failure_sentinel (s : string) : Prop :=
  s = "[timeout]" \/ exists msg, s = "[error: " ++ msg ++ "]".

Definition sys_of (fs : list entry) (o : proc_outcome) : system :=
  {| sys_fs := fs; sys_run := fun _ _ => o; sys_json_load := fun _ => None |}.

Definition sys_const (o : proc_outcome) : system := sys_of [] o.

Definition fs_no_git : list entry :=
  [ dir "w" [ dir "specs" [ dir "a" [ralph_dir] ] ] ].

Definition with_now (e : env) (t : string) : env :=
  {| env_now := t; env_host := env_host e; env_python := env_python e;
     env_sys := env_sys e |}.

(** Commands issued while building one spec's record. *)
Definition per_spec_cmd (c : command) : Prop :=
  fst c = git_branch_cmd \/ fst c = git_log_cmd \/ fst c = git_status_cmd
  \/ exists p, fst c = du_cmd p.

Definition workspace_probe_cmds : list command :=
  [(docker_cmd, None); (which_cmd, None); (which_cmd, None)].

Ltac not_session_line :=
  unfold session_heading, nl, chr; simpl; discriminate.

Definition dq : string := chr 34.

Definition jq (s : string) : string := dq ++ s ++ dq.

Definition blocked_progress : json :=
  JObj [ ("status", JStr "blocked"); ("current_task", JStr "t3");
         ("completed_tasks", JArr [JStr "t1"; JStr "t2"]);
         ("blocked_reason", JStr "awaiting approval");
         ("last_updated", JStr "2024-01-01T00:00:00Z") ].

Definition blocked_progress_text : string :=
  "{" ++ jq "status" ++ ":" ++ jq "blocked" ++ ","
  ++ jq "current_task" ++ ":" ++ jq "t3" ++ ","
  ++ jq "completed_tasks" ++ ":[" ++ jq "t1" ++ "," ++ jq "t2" ++ "],"
  ++ jq "blocked_reason" ++ ":" ++ jq "awaiting approval" ++ ","
  ++ jq "last_updated" ++ ":" ++ jq "2024-01-01T00:00:00Z" ++ "}".

Definition blocked_block : list string :=
  [ progress_heading; "- Status: `blocked`"; "- Current Task: `t3`";
    "- Completed: 2 tasks"; "- 🚫 BLOCKED: awaiting approval";
    "- Last Updated: `2024-01-01T00:00:00Z`" ].

(** [json.load] on the two texts used below, as Python decodes them. *)
Definition demo_json_load (s : string) : option json :=
  if s =? blocked_progress_text then Some blocked_progress
  else if s =? "[1]" then Some (JArr [JNum "1"])
  else None.

Definition demo_run (cmd : string) (cwd : option path) : proc_outcome :=
  if cmd =? git_branch_cmd then Completed 0%Z ("main" ++ nl)
  else if cmd =? git_log_cmd then Completed 0%Z ("abc123 first commit" ++ nl)
  else if cmd =? which_cmd then Completed 0%Z ("/usr/bin/timeout" ++ nl)
  else Completed 0%Z "".

Definition spec_a : path := ["w"; "specs"; "a"].

Definition fs_demo : list entry :=
  [ dir "w" [ dir ".git" [];
              dir "specs" [ dir "a" [ dir ".ralph"
                                        [EFile "progress.json" (Text blocked_progress_text)] ] ] ] ].

Definition sys_demo : system :=
  {| sys_fs := fs_demo; sys_run := demo_run; sys_json_load := demo_json_load |}.

Definition env_demo : env :=
  {| env_now := "2024-01-02 03:04:05"; env_host := "devbox";
     env_python := "3.12.1"; env_sys := sys_demo |}.

Definition list_or_absent (o : list (string * json)) (k : string) : Prop :=
  match py_get o k with
  | None => True
  | Some (JArr _) => True
  | Some _ => False
  end.

Definition blocked_line (o : list (string * json)) : list string :=
  if match dget o "status" JNull with JStr s => s =? "blocked" | _ => false end
  then ["- 🚫 BLOCKED: " ++ py_str (dget o "blocked_reason" (JStr "unknown"))]
  else [].

Definition failed_line (o : list (string * json)) : list string :=
  match py_get o "failed_tasks" with
  | Some (JArr ((_ :: _) as l)) => ["- Failed Tasks: " ++ nat_str (length l)]
  | _ => []
  end.

Definition completed_count (o : list (string * json)) : nat :=
  match py_get o "completed_tasks" with
  | Some (JArr l) => length l
  | _ => 0
  end.

(** A workspace with two specs in different trees; the one under [w] has a
    sibling service directory whose name holds a single quote, so the shell
    command [du -sh '/w/services/it's/node_modules'] is a syntax error: exit
    status 2 and nothing on standard output. *)
Definition spec_w : path := ["w"; "specs"; "a"].

Definition spec_v : path := ["v"; "specs"; "b"].

Definition fs_quote_service : list entry :=
  [ dir "v" [ dir "specs" [ dir "b" [ralph_dir] ] ];
    dir "w" [ dir "specs" [ dir "a" [ralph_dir] ];
              dir "services" [ dir "it's" [ dir "node_modules" [] ] ] ] ].

Definition quote_du_cmd : string := du_cmd ["w"; "services"; "it's"; "node_modules"].

Definition quote_run (cmd : string) (cwd : option path) : proc_outcome :=
  if cmd =? quote_du_cmd then Completed 2%Z "" else Completed 0%Z "".

Definition env_quote : env :=
  {| env_now := "2024-01-02 03:04:05"; env_host := "devbox"; env_python := "3.12.1";
     env_sys := {| sys_fs := fs_quote_service; sys_run := quote_run;
                   sys_json_load := demo_json_load |} |}.

(** A progress file holding the valid JSON text [[1]], a list. *)
Definition fs_list_progress : list entry :=
  [ dir "v" [ dir "specs" [ dir "b" [ralph_dir] ] ];
    dir "w" [ dir "specs" [ dir "a" [ dir ".ralph" [EFile "progress.json" (Text "[1]")] ] ] ] ].

Definition env_list_progress : env :=
  {| env_now := "2024-01-02 03:04:05"; env_host := "devbox"; env_python := "3.12.1";
     env_sys := {| sys_fs := fs_list_progress; sys_run := fun _ _ => Completed 0%Z "";
                   sys_json_load := demo_json_load |} |}.

(** A real directory never holds two entries of the same name. *)
Fixpoint names_nodup (l : list string) : bool :=
  match l with
  | [] => true
  | x :: r => negb (existsb (String.eqb x) r) && names_nodup r
  end.

Fixpoint wf_entry (e : entry) : bool :=
  match e with
  | EFile _ _ => true
  | EDir _ ch => names_nodup (map entry_name ch) && forallb wf_entry ch
  end.

Definition wf_fs (fs : list entry) : bool :=
  names_nodup (map entry_name fs) && forallb wf_entry fs.

Definition entry_node (e : entry) : node :=
  match e with EFile _ d => NFile d | EDir _ ch => NDir ch end.

(** [lookup] below one entry. *)
Definition lookup_entry (e : entry) (r : path) : option node :=
  match e, r with
  | EFile _ d, [] => Some (NFile d)
  | EFile _ _, _ :: _ => None
  | EDir _ ch, r => lookup ch r
  end.

Fixpoint entry_ind2 (P : entry -> Prop)
  (Hf : forall n d, P (EFile n d))
  (Hd : forall n ch, Forall P ch -> P (EDir n ch)) (e : entry) : P e :=
  match e with
  | EFile n d => Hf n d
  | EDir n ch =>
      Hd n ch ((fix go (l : list entry) : Forall P l :=
                  match l with
                  | [] => Forall_nil P
                  | x :: xs => Forall_cons x (entry_ind2 P Hf Hd x) (go xs)
                  end) ch)
  end.

Definition path_le (p q : path) : Prop := path_leb p q = true.

(** What the code accepts: an immediate child directory of a directory
    named [specs] strictly below the workspace, holding an entry (file or
    directory) named [.ralph]. *)
Definition discovered_spec (fs : list entry) (ws p : path) : Prop :=
  exists r c, p = (ws ++ r ++ [c])%list /\ r <> [] /\ last r "" = "specs"
              /\ is_dir fs (ws ++ r)%list = true /\ is_dir fs p = true
              /\ path_exists fs (p ++ [".ralph"])%list = true.

(** The claim's reading: the marker must be a directory. *)
Definition claimed_spec (fs : list entry) (ws p : path) : Prop :=
  exists r c, p = (ws ++ r ++ [c])%list /\ last (ws ++ r)%list "" = "specs"
              /\ is_dir fs (ws ++ r)%list = true /\ is_dir fs p = true
              /\ is_dir fs (p ++ [".ralph"])%list = true.

Definition fs_marker_file : list entry :=
  [ dir "w" [ dir "specs" [ dir "a" [EFile ".ralph" (Text "")] ] ] ].

(** A repository whose [.git] sits at [/w], with a spec two levels below. *)
Definition fs_git_root : list entry :=
  [ dir "w" [ dir ".git" []; dir "specs" [ dir "a" [ralph_dir] ] ] ].

Definition sys_git_root : system := sys_of fs_git_root (Completed 0%Z "").

(** The workspace of [fs_two_specs], whose discovery yields three specs. *)
Definition env_two_specs : env :=
  {| env_now := "2024-01-02 03:04:05"; env_host := "devbox";
     env_python := "3.12.1"; env_sys := sys_of fs_two_specs (Completed 0%Z "") |}.

(** A child [n] of the [services] directory [sd] that the resource loop
    measures: a directory holding [node_modules]. *)
Definition measured (fs : list entry) (sd : path) (n : string) : bool :=
  is_dir fs (sd ++ [n])%list && path_exists fs ((sd ++ [n]) ++ ["node_modules"])%list.

(** The [du] command the loop runs for the child [n] of [sd]. *)
Definition du_of (sd : path) (n : string) : string :=
  du_cmd ((sd ++ [n]) ++ ["node_modules"])%list.

(** A [services] directory with a measured service, a plain file and a
    service without [node_modules]. *)
Definition fs_services : list entry :=
  [ dir "w" [ dir "specs" [ dir "a" [ralph_dir] ];
              dir "services" [ dir "api" [ dir "node_modules" [] ];
                               EFile "notes.txt" (Text "");
                               dir "web" [] ] ] ].

Definition services_run (cmd : string) (cwd : option path) : proc_outcome :=
  Completed 0%Z ("120M" ++ chr 9 ++ "/w/services/api/node_modules" ++ nl).

Definition sys_services : system :=
  {| sys_fs := fs_services; sys_run := services_run; sys_json_load := fun _ => None |}.

(** Two results that both succeed, or both fail with the same exception. *)
Definition same_outcome {A B} (r : result A) (r' : result B) : Prop :=
  match r, r' with
  | Ok _, Ok _ => True
  | Exc x, Exc y => x = y
  | _, _ => False
  end.

(** A line that starts like a spec heading ([\n### ...]). *)
Definition is_spec_heading (l : string) : bool := String.prefix (nl ++ "### ") l.

(** The lines of the verbose report on the sample workspace [env_demo]. *)
Definition demo_lines : list string :=
  match snd (format_report_lines env_demo [spec_a] true) with
  | Ok l => l
  | Exc _ => []
  end.

Ltac no_heading :=
  repeat first [ apply Forall_nil
               | apply (proj2 (Forall_app _ _ _)); split
               | apply Forall_cons; [reflexivity|] ].

(** * Properties *)

(** ** Helper lemmas *)

Example scan_two_specs :
  scan_specs fs_two_specs ["w"] =
  [["w"; "nested"; "specs"; "x"]; ["w"; "specs"; "a"]; ["w"; "specs"; "b"]].
Proof. reflexivity. Qed.

Lemma str_app_assoc (a b c : string) : (a ++ b) ++ c = a ++ (b ++ c).
Proof. induction a as [|x a IH]; simpl; [reflexivity | now rewrite IH]. Qed.

Lemma str_app_empty_r (a : string) : a ++ "" = a.
Proof. induction a as [|x a IH]; simpl; [reflexivity | now rewrite IH]. Qed.

Lemma parent_length (p : path) : p <> [] -> length (parent p) = length p - 1.
Proof.
  intros Hp. unfold parent.
  rewrite (app_removelast_last "" Hp) at 2.
  rewrite length_app. simpl. lia.
Qed.

Lemma parent_split (p : path) : p <> [] -> exists l, p = (parent p ++ [l])%list.
Proof. intros Hp. exists (last p ""). exact (app_removelast_last "" Hp). Qed.

Lemma path_eqb_parent (p : path) : path_eqb p (parent p) = true -> p = [].
Proof.
  unfold path_eqb. destruct (list_eq_dec string_dec p (parent p)) as [E|]; [|discriminate].
  intros _. destruct p as [|c p]; [reflexivity|].
  exfalso. assert (L := parent_length (c :: p) ltac:(discriminate)).
  rewrite <- E in L. simpl in L. lia.
Qed.

(** ** run_cmd *)

(** Claim C1 (counterexample): a command that exits with status 1 after
    printing ["partial"] gives back its plain trimmed output, not a failure
    sentinel. *)
Lemma run_cmd_nonzero_exit_plain_output :
  snd (run_cmd (sys_const (Completed 1%Z ("partial" ++ nl))) "false_cmd" None)
    = Ok "partial"
  /\ ~ is_failure_sentinel "partial".
Proof.
  split; [reflexivity|].
  intros [H | [msg H]]; [discriminate H | simpl in H; discriminate H].
Qed.

(** Claim C1 (amended): [run_cmd] never raises and issues exactly one
    command. A completed process yields its trimmed standard output whatever
    its exit status; a timeout yields ["[timeout]"]; any other exception
    yields ["[error: <message>]"]. *)
Theorem run_cmd_never_raises (sy : system) (cmd : string) (cwd : option path) :
  fst (run_cmd sy cmd cwd) = [(cmd, cwd)]
  /\ exists v, snd (run_cmd sy cmd cwd) = Ok v
  /\ match sys_run sy cmd cwd with
     | Completed _ out => v = strip out
                          /\ forall rc, v = run_cmd_value (Completed rc out)
     | TimeoutExpired => v = "[timeout]"
     | Raised msg => v = "[error: " ++ msg ++ "]"
     end.
Proof.
  split; [reflexivity|].
  eexists; split; [reflexivity|].
  unfold run_cmd_value; destruct (sys_run sy cmd cwd); auto.
Qed.

(** ** check_docker_status *)

(** Claim C9: the Docker probe records the placeholder exactly when the
    [run_cmd] result is empty or starts with ["["], and the result verbatim
    otherwise; so even a completed listing whose trimmed output starts with
    ["["] is reported as unavailable. *)
Theorem check_docker_status_placeholder (sy : system) :
  (let r := run_cmd_value (sys_run sy docker_cmd None) in
   check_docker_status sy =
     ([(docker_cmd, None)],
      Ok {| containers := if (r =? "") || String.prefix "[" r
                          then docker_placeholder else r |}))
  /\ forall rc out,
       sys_run sy docker_cmd None = Completed rc out ->
       String.prefix "[" (strip out) = true ->
       snd (check_docker_status sy) = Ok {| containers := docker_placeholder |}.
Proof.
  split.
  - simpl. unfold check_docker_status, bind, run_cmd.
    destruct (run_cmd_value (sys_run sy docker_cmd None) =? "");
      destruct (String.prefix "[" (run_cmd_value (sys_run sy docker_cmd None)));
      reflexivity.
  - intros rc out Hrun Hpre. unfold check_docker_status, bind, run_cmd; simpl.
    rewrite Hrun. simpl. rewrite Hpre, andb_false_r. reflexivity.
Qed.

Lemma check_docker_status_placeholder_witness :
  sys_run (sys_const (Completed 0%Z "[x]")) docker_cmd None = Completed 0%Z "[x]"
  /\ String.prefix "[" (strip "[x]") = true
  /\ snd (check_docker_status (sys_const (Completed 0%Z "[x]")))
       = Ok {| containers := docker_placeholder |}.
Proof.
  split; [reflexivity|]. split; [reflexivity|].
  apply (proj2 (check_docker_status_placeholder (sys_const (Completed 0%Z "[x]"))) 0%Z "[x]");
    reflexivity.
Defined.

(** ** get_git_info: the upward search *)

Lemma find_repo_root_bound (fs : list entry) (fuel : nat) (p : path) :
  length p < fuel ->
  exists r, find_repo_root fs fuel p = Some r
            /\ (exists q, p = (r ++ q)%list)
            /\ (r = [] \/ path_exists fs (r ++ [".git"])%list = true).
Proof.
  revert p. induction fuel as [|f IH]; intros p Hlt; [lia|].
  simpl. destruct (path_eqb p (parent p)) eqn:Eroot.
  - apply path_eqb_parent in Eroot. subst p.
    exists []. split; [reflexivity|]. split; [exists []; reflexivity|]. now left.
  - destruct (path_exists fs (p ++ [".git"])%list) eqn:Egit.
    + exists p. split; [reflexivity|]. split; [exists []; now rewrite app_nil_r|].
      now right.
    + assert (Hp : p <> []) by (intros ->; discriminate Eroot).
      destruct (IH (parent p)) as [r [Hr [[q Hq] Hgit]]].
      { rewrite parent_length by exact Hp.
        destruct p; [congruence|]. simpl in *. lia. }
      exists r. split; [exact Hr|]. split; [|exact Hgit].
      destruct (parent_split p Hp) as [l Hl].
      exists (q ++ [l])%list. rewrite Hl at 1. rewrite Hq. now rewrite app_assoc.
Qed.

Lemma find_repo_root_no_git (fs : list entry) (fuel : nat) (p r : path) :
  (forall q s, p = (q ++ s)%list -> path_exists fs (q ++ [".git"])%list = false) ->
  find_repo_root fs fuel p = Some r ->
  path_exists fs (r ++ [".git"])%list = false.
Proof.
  revert p. induction fuel as [|f IH]; intros p Hno Hfind; [discriminate|].
  simpl in Hfind.
  destruct (path_eqb p (parent p)).
  - injection Hfind as <-. apply (Hno p []). now rewrite app_nil_r.
  - destruct (path_exists fs (p ++ [".git"])%list) eqn:E.
    + rewrite (Hno p []) in E by (now rewrite app_nil_r). discriminate E.
    + apply (IH (parent p)); [|exact Hfind].
      intros q s Hq. destruct p as [|c p']; [apply (Hno q s); exact Hq|].
      destruct (parent_split (c :: p') ltac:(discriminate)) as [l Hl].
      apply (Hno q (s ++ [l])%list). rewrite Hl, Hq. now rewrite app_assoc.
Qed.

(** Claim C8: the ascent stops within [length spec_dir + 1] rounds of the
    [while] loop (any larger bound gives the same root): at a prefix of the
    spec directory holding [.git], or at "/". When no prefix holds [.git],
    [get_git_info] runs no command and returns the empty result. *)
Theorem get_git_info_terminates (sy : system) (spec_dir : path) :
  (exists repo_root,
     (forall fuel, length spec_dir < fuel ->
        find_repo_root (sys_fs sy) fuel spec_dir = Some repo_root)
     /\ (exists q, spec_dir = (repo_root ++ q)%list)
     /\ (repo_root = [] \/ path_exists (sys_fs sy) (repo_root ++ [".git"])%list = true))
  /\ ((forall q s, spec_dir = (q ++ s)%list ->
         path_exists (sys_fs sy) (q ++ [".git"])%list = false) ->
      get_git_info sy spec_dir = ([], Ok None)).
Proof.
  split.
  - destruct (find_repo_root_bound (sys_fs sy) (S (length spec_dir)) spec_dir)
      as [r [Hr [Hpre Hgit]]]; [lia|].
    exists r. split; [|split; assumption].
    intros fuel Hf.
    destruct (find_repo_root_bound (sys_fs sy) fuel spec_dir Hf) as [r' [Hr' _]].
    rewrite Hr'. f_equal.
    (* both runs follow the same deterministic loop *)
    clear -Hr Hr'. revert Hr Hr'.
    generalize (S (length spec_dir)) as n. generalize spec_dir as p.
    induction fuel as [|f IH]; intros p n H1 H2; [discriminate|].
    destruct n as [|n]; [discriminate|].
    simpl in H1, H2.
    destruct (path_eqb p (parent p)); [congruence|].
    destruct (path_exists (sys_fs sy) (p ++ [".git"])%list); [congruence|].
    exact (IH (parent p) n H1 H2).
  - intros Hno. unfold get_git_info.
    destruct (find_repo_root (sys_fs sy) (S (length spec_dir)) spec_dir) as [r|] eqn:Hr;
      [|reflexivity].
    rewrite (find_repo_root_no_git _ _ _ _ Hno Hr). reflexivity.
Qed.

Lemma get_git_info_terminates_witness :
  (forall q s, ["w"; "specs"; "a"] = (q ++ s)%list ->
     path_exists fs_no_git (q ++ [".git"])%list = false)
  /\ get_git_info (sys_of fs_no_git (Completed 0%Z "")) ["w"; "specs"; "a"] = ([], Ok None).
Proof.
  assert (H : forall q s, ["w"; "specs"; "a"] = (q ++ s)%list ->
                path_exists fs_no_git (q ++ [".git"])%list = false).
  { intros q s E.
    destruct q as [|a [|b [|c [|d q]]]]; simpl in E;
      try (injection E as <- ; subst); try (injection E as <- <-; subst);
      try (injection E as <- <- <-; subst); try (injection E as <- <- <- E); reflexivity
      || (destruct q; discriminate || destruct s; discriminate). }
  split; [exact H|].
  apply (proj2 (get_git_info_terminates (sys_of fs_no_git (Completed 0%Z "")) ["w"; "specs"; "a"])).
  exact H.
Defined.

(** ** format_report: what the output depends on *)

Lemma concat_header (t : string) (rest : list string) :
  rest <> [] ->
  String.concat nl (title_line :: (nl ++ "**Generated:** " ++ t) :: rest)
  = title_line ++ nl ++ nl ++ "**Generated:** " ++ t ++ (nl ++ String.concat nl rest).
Proof.
  intros Hr. destruct rest as [|x rest]; [congruence|].
  cbn [String.concat].
  rewrite !str_app_assoc. reflexivity.
Qed.

(** Claim C4 (counterexample): two calls on the same snapshot one second
    apart render different documents. *)
Lemma format_report_differs_across_clock :
  let e := {| env_now := "2024-01-01 00:00:00"; env_host := "h";
              env_python := "3.12.0"; env_sys := sys_const (Completed 0%Z "") |} in
  format_report e [] false <> format_report (with_now e "2024-01-01 00:00:01") [] false.
Proof. vm_compute. congruence. Qed.

(** Claim C4 (amended): the rendered document is the fixed title, the
    generation timestamp read from the clock, and a remainder (and command
    trace) that does not depend on the clock; so two calls with the same
    snapshot, host name, Python version and clock reading (to the second)
    give byte-identical output. *)
Theorem format_report_clock_only (e : env) (specs : list path) (verbose : bool) :
  exists trace r, forall t,
    format_report (with_now e t) specs verbose
    = (trace, match r with
              | Ok body => Ok (title_line ++ nl ++ nl ++ "**Generated:** " ++ t ++ body)
              | Exc x => Exc x
              end).
Proof.
  unfold format_report, format_report_lines, with_now; cbn [env_sys].
  destruct specs as [|p ps].
  - exists []. eexists (Ok _). intros t. cbn -[String.concat title_line String.append nl].
    rewrite concat_header by discriminate. reflexivity.
  - destruct (spec_sections (env_sys e) verbose (p :: ps)) as [t1 [body|x]].
    + destruct (if verbose then system_diagnostics (env_sys e) else ret [])
        as [t2 [diag|x]].
      * exists ((t1 ++ t2 ++ []) ++ [])%list. eexists (Ok _). intros t.
        cbn -[String.concat app title_line String.append nl].
        unfold header_lines; cbn [app env_now env_host env_python].
        rewrite concat_header by discriminate. reflexivity.
      * exists ((t1 ++ t2))%list. exists (Exc x). intros t. reflexivity.
    + exists t1. exists (Exc x). intros t. reflexivity.
Qed.

(** ** Command traces *)

Lemma bind_trace_Forall {A B} (P : command -> Prop) (m : M A) (k : A -> M B) :
  Forall P (fst m) -> (forall a, Forall P (fst (k a))) -> Forall P (fst (bind m k)).
Proof.
  destruct m as [t [a|x]]; simpl; intros H1 H2; [|exact H1].
  specialize (H2 a). destruct (k a) as [t2 r2]. simpl in *.
  apply Forall_app; split; assumption.
Qed.

Lemma bind_ok_inv {A B} (m : M A) (k : A -> M B) (b : B) :
  snd (bind m k) = Ok b ->
  exists a, snd m = Ok a /\ snd (k a) = Ok b
            /\ fst (bind m k) = (fst m ++ fst (k a))%list.
Proof.
  destruct m as [t [a|x]]; simpl; [|discriminate].
  destruct (k a) as [t2 r2] eqn:E; simpl. intros ->.
  exists a. rewrite E. auto.
Qed.

Lemma per_spec_cmd_not_workspace (c : command) :
  per_spec_cmd c -> fst c <> docker_cmd /\ fst c <> which_cmd.
Proof.
  intros [H|[H|[H|[p H]]]]; rewrite H; split; intros E;
    try discriminate E; unfold du_cmd in E; simpl in E; discriminate E.
Qed.

Lemma resource_loop_trace (sy : system) (sd : path) (ns : list string) acc :
  Forall per_spec_cmd (fst (resource_loop sy sd ns acc)).
Proof.
  revert acc. induction ns as [|n ns IH]; intros acc; cbn [resource_loop];
    [constructor|].
  destruct (is_dir (sys_fs sy) (sd ++ [n])%list); [|apply IH].
  destruct (path_exists (sys_fs sy) ((sd ++ [n]) ++ ["node_modules"])%list); [|apply IH].
  apply bind_trace_Forall.
  - constructor; [|constructor]. right; right; right. eexists; reflexivity.
  - intros out. apply bind_trace_Forall.
    + unfold first_word. destruct (split_ws out); constructor.
    + intros size. apply IH.
Qed.

Lemma get_resource_usage_trace (sy : system) (p : path) :
  Forall per_spec_cmd (fst (get_resource_usage sy p)).
Proof.
  unfold get_resource_usage.
  destruct (path_exists _ _); [|constructor].
  destruct (lookup _ _) as [[d|ch]|]; try constructor.
  apply resource_loop_trace.
Qed.

Lemma get_git_info_trace (sy : system) (p : path) :
  Forall per_spec_cmd (fst (get_git_info sy p)).
Proof.
  unfold get_git_info.
  destruct (find_repo_root _ _ _) as [r|]; [|constructor].
  destruct (path_exists _ _); [|constructor].
  repeat (apply bind_trace_Forall; [constructor; [unfold per_spec_cmd; simpl; tauto|constructor]|intros ?]).
  constructor.
Qed.

Lemma spec_sections_trace (sy : system) (verbose : bool) (ps : list path) :
  Forall per_spec_cmd (fst (spec_sections sy verbose ps)).
Proof.
  induction ps as [|p ps IH]; cbn [spec_sections]; [constructor|].
  apply bind_trace_Forall; [|intros l; apply bind_trace_Forall; [exact IH|intros; constructor]].
  unfold spec_section.
  apply bind_trace_Forall; [destruct (progress_lines _); constructor|intros pl].
  apply bind_trace_Forall; [apply get_git_info_trace|intros gi].
  apply bind_trace_Forall; [apply get_resource_usage_trace|intros; constructor].
Qed.

Lemma system_diagnostics_trace (sy : system) :
  fst (system_diagnostics sy) = workspace_probe_cmds
  /\ exists ls, snd (system_diagnostics sy) = Ok ls.
Proof.
  unfold system_diagnostics, check_docker_status, check_system_deps, bind, run_cmd.
  simpl.
  destruct (run_cmd_value (sys_run sy docker_cmd None) =? "");
    destruct (String.prefix "[" (run_cmd_value (sys_run sy docker_cmd None)));
    simpl; split; eauto.
Qed.

(** Claim C6 (counterexample): with verbose output and no spec discovered,
    the report returns before the workspace-wide probes: no command at all
    is issued, so the Docker probe never runs. *)
Lemma format_report_no_specs_skips_probes :
  let e := {| env_now := "2024-01-01 00:00:00"; env_host := "h";
              env_python := "3.12.0"; env_sys := sys_const (Completed 0%Z "") |} in
  fst (format_report e [] true) = []
  /\ ~ In (docker_cmd, None) (fst (format_report e [] true)).
Proof. split; [reflexivity|]. simpl. tauto. Qed.

(** Claim C6 (amended): with verbose output and at least one spec, when the
    per-spec records are built without raising, the Docker probe and the
    dependency check each run exactly once, after every per-spec command:
    the trace ends with the [docker ps] command and the two [which timeout]
    commands of the single [check_system_deps] call, and no earlier command
    is one of these, whatever the number of specs. With no spec, no command
    runs at all and the report is the header followed by the warning line,
    which is its last line. *)
Theorem format_report_workspace_probes_once (e : env) (specs : list path) :
  (specs = [] ->
   format_report e specs true
   = ([], Ok (String.concat nl (header_lines e ++ [no_specs_line])%list)))
  /\ (specs <> [] ->
      (exists body, snd (spec_sections (env_sys e) true specs) = Ok body) ->
      exists t doc,
        snd (format_report e specs true) = Ok doc
        /\ fst (format_report e specs true) = (t ++ workspace_probe_cmds)%list
        /\ Forall (fun c => fst c <> docker_cmd /\ fst c <> which_cmd) t).
Proof.
  split.
  - intros ->. reflexivity.
  - intros Hne [body Hbody].
    destruct (system_diagnostics_trace (env_sys e)) as [Hdt [diag Hd]].
    assert (Hsec := spec_sections_trace (env_sys e) true specs).
    exists (fst (spec_sections (env_sys e) true specs)).
    unfold format_report, format_report_lines.
    destruct specs as [|p ps]; [congruence|].
    destruct (spec_sections (env_sys e) true (p :: ps)) as [t1 r1] eqn:Es.
    simpl in Hbody. subst r1.
    destruct (system_diagnostics (env_sys e)) as [t2 r2] eqn:Ed.
    simpl in Hdt, Hd. subst t2 r2.
    eexists. simpl. split; [reflexivity|]. split.
    + now rewrite !app_nil_r.
    + simpl in Hsec. eapply Forall_impl; [|exact Hsec].
      intros c Hc. exact (per_spec_cmd_not_workspace c Hc).
Qed.

(** ** Shape of the rendered lines *)

Lemma spec_section_ok (sy : system) (v : bool) (p : path) (l : list string) :
  snd (spec_section sy v p) = Ok l ->
  exists pl gi res,
    progress_lines (get_ralph_status sy p) = Ok pl
    /\ l = (spec_heading p :: pl ++ session_lines v (get_session_log sy p)
            ++ git_lines gi ++ resource_lines v res)%list.
Proof.
  unfold spec_section. intros H.
  apply bind_ok_inv in H as [pl [Hpl [H _]]].
  apply bind_ok_inv in H as [gi [_ [H _]]].
  apply bind_ok_inv in H as [res [_ [H _]]].
  simpl in Hpl, H. injection H as <-.
  exists pl, gi, res. auto.
Qed.

Lemma format_report_lines_one (e : env) (p : path) (v : bool) (lines : list string) :
  snd (format_report_lines e [p] v) = Ok lines ->
  exists l diag,
    snd (spec_section (env_sys e) v p) = Ok l
    /\ (diag = [] \/ snd (system_diagnostics (env_sys e)) = Ok diag)
    /\ lines = (header_lines e ++ found_line 1 :: l ++ diag)%list.
Proof.
  unfold format_report_lines. intros H.
  apply bind_ok_inv in H as [body [Hb [H _]]].
  apply bind_ok_inv in H as [diag [Hd [H _]]].
  simpl in H. injection H as <-.
  cbn [spec_sections] in Hb.
  apply bind_ok_inv in Hb as [l [Hl [Hb _]]].
  simpl in Hb. injection Hb as <-.
  exists l, diag. split; [exact Hl|]. split.
  - destruct v; [now right | simpl in Hd; injection Hd as <-; now left].
  - now rewrite app_nil_r.
Qed.

Lemma git_lines_no_session (gi : option git_info) : ~ In session_heading (git_lines gi).
Proof.
  unfold git_lines. destruct gi as [g|]; [|simpl; tauto]. cbv zeta.
  intros [H|H]; [revert H; not_session_line|].
  apply in_app_or in H as [H|H].
  { destruct (gi_branch g =? ""); [exact H|].
    destruct H as [H|[]]. revert H; not_session_line. }
  apply in_app_or in H as [H|H].
  { destruct (gi_recent_commits g) as [|c cs]; [exact H|].
    destruct H as [H|H]; [revert H; not_session_line|].
    apply in_flat_map in H as [x [_ Hx]].
    destruct (strip x =? ""); [exact Hx|].
    destruct Hx as [Hx|[]]. revert Hx; not_session_line. }
  destruct (gi_status g =? ""); [exact H|].
  destruct H as [H|[]]. revert H; not_session_line.
Qed.

Lemma resource_lines_no_session (v : bool) res :
  ~ In session_heading (resource_lines v res).
Proof.
  unfold resource_lines. destruct res as [|r rs]; [simpl; tauto|].
  destruct v; [|simpl; tauto].
  intros [H|H]; [revert H; not_session_line|].
  apply in_map_iff in H as [kv [H _]]. revert H; not_session_line.
Qed.

Lemma system_diagnostics_no_session (sy : system) ls :
  snd (system_diagnostics sy) = Ok ls -> ~ In session_heading ls.
Proof.
  unfold system_diagnostics. intros H.
  apply bind_ok_inv in H as [d [_ [H _]]].
  apply bind_ok_inv in H as [deps [_ [H _]]].
  simpl in H. injection H as <-.
  intros Hin. destruct Hin as [H|[H|[H|[H|Hin]]]]; try (revert H; not_session_line).
  - unfold dep_lines in Hin. apply in_flat_map in Hin as [di [_ Hin]].
    destruct Hin as [H|H]; [revert H; not_session_line|].
    destruct (dep_path (snd di) =? ""); simpl in H; [tauto|].
    destruct H as [H|[]]. revert H; not_session_line.
Qed.

(** ** The blocked scenario *)

Lemma progress_lines_blocked : progress_lines blocked_progress = Ok blocked_block.
Proof. reflexivity. Qed.

(** Claim C7: for a single spec whose progress file decodes to the blocked
    object and which has no session log, a rendered report shows, right after
    the spec's heading, status [blocked], current task [t3], 2 completed
    tasks, the blocked reason and the last update, and no session-log block. *)
Theorem format_report_blocked_scenario (e : env) (p : path) (v : bool) (s : string)
  (lines : list string) :
  lookup (sys_fs (env_sys e)) (p ++ [".ralph"; "progress.json"])%list
    = Some (NFile (Text s)) ->
  sys_json_load (env_sys e) (univ_nl s) = Some blocked_progress ->
  path_exists (sys_fs (env_sys e)) (p ++ [".ralph"; "session.log"])%list = false ->
  snd (format_report_lines e [p] v) = Ok lines ->
  exists rest,
    lines = (header_lines e ++ found_line 1 :: spec_heading p :: blocked_block ++ rest)%list
    /\ ~ In session_heading rest.
Proof.
  intros Hprog Hjson Hlog Hok.
  apply format_report_lines_one in Hok as [l [diag [Hl [Hdiag ->]]]].
  apply spec_section_ok in Hl as [pl [gi [res [Hpl ->]]]].
  assert (Hst : get_ralph_status (env_sys e) p = blocked_progress).
  { unfold get_ralph_status, path_exists. rewrite Hprog. simpl.
    rewrite Hjson. reflexivity. }
  assert (Hsl : get_session_log (env_sys e) p = []).
  { unfold get_session_log. rewrite Hlog. reflexivity. }
  rewrite Hst, progress_lines_blocked in Hpl. injection Hpl as <-.
  rewrite Hsl.
  exists ((git_lines gi ++ resource_lines v res) ++ diag)%list.
  split.
  - simpl. now rewrite <- !app_assoc.
  - intros H. apply in_app_or in H as [H|H].
    + apply in_app_or in H as [H|H].
      * exact (git_lines_no_session gi H).
      * exact (resource_lines_no_session v res H).
    + destruct Hdiag as [->|Hd]; [exact H|].
      exact (system_diagnostics_no_session _ _ Hd H).
Qed.

(** ** Witnesses on the sample workspace *)

Lemma format_report_workspace_probes_once_witness :
  format_report env_two_specs [] true
    = ([], Ok (String.concat nl (header_lines env_two_specs ++ [no_specs_line])%list))
  /\ length (scan_specs fs_two_specs ["w"]) = 3
  /\ scan_specs fs_two_specs ["w"] <> []
  /\ (exists body, snd (spec_sections (env_sys env_two_specs) true
                                     (scan_specs fs_two_specs ["w"])) = Ok body)
  /\ exists t doc,
       snd (format_report env_two_specs (scan_specs fs_two_specs ["w"]) true) = Ok doc
       /\ fst (format_report env_two_specs (scan_specs fs_two_specs ["w"]) true)
          = (t ++ workspace_probe_cmds)%list
       /\ Forall (fun c => fst c <> docker_cmd /\ fst c <> which_cmd) t.
Proof.
  assert (H0 : @nil path = []) by reflexivity.
  assert (H1 : scan_specs fs_two_specs ["w"] <> []) by (vm_compute; discriminate).
  assert (H2 : exists body, snd (spec_sections (env_sys env_two_specs) true
                                              (scan_specs fs_two_specs ["w"])) = Ok body)
    by (eexists; vm_compute; reflexivity).
  split; [exact (proj1 (format_report_workspace_probes_once env_two_specs []) H0)|].
  split; [vm_compute; reflexivity|].
  split; [exact H1|]. split; [exact H2|].
  exact (proj2 (format_report_workspace_probes_once env_two_specs
                  (scan_specs fs_two_specs ["w"])) H1 H2).
Defined.

Lemma format_report_blocked_scenario_witness :
  lookup fs_demo (spec_a ++ [".ralph"; "progress.json"])%list
    = Some (NFile (Text blocked_progress_text))
  /\ demo_json_load (univ_nl blocked_progress_text) = Some blocked_progress
  /\ path_exists fs_demo (spec_a ++ [".ralph"; "session.log"])%list = false
  /\ exists lines,
       snd (format_report_lines env_demo [spec_a] true) = Ok lines
       /\ exists rest,
            lines = (header_lines env_demo ++ found_line 1 :: spec_heading spec_a
                       :: blocked_block ++ rest)%list
            /\ ~ In session_heading rest.
Proof.
  assert (H1 : lookup fs_demo (spec_a ++ [".ralph"; "progress.json"])%list
               = Some (NFile (Text blocked_progress_text))) by reflexivity.
  assert (H2 : demo_json_load (univ_nl blocked_progress_text) = Some blocked_progress)
    by reflexivity.
  assert (H3 : path_exists fs_demo (spec_a ++ [".ralph"; "session.log"])%list = false)
    by reflexivity.
  split; [exact H1|]. split; [exact H2|]. split; [exact H3|].
  eexists. split; [vm_compute; reflexivity|].
  apply (format_report_blocked_scenario env_demo spec_a true blocked_progress_text);
    [exact H1 | exact H2 | exact H3 | vm_compute; reflexivity].
Defined.

(** ** Defaults of the progress block *)

(** Claim C10 (counterexample): the empty object [{}] parses as a JSON
    object omitting every field, yet it is falsy, so no progress line (in
    particular no default status line) is rendered. *)
Lemma progress_lines_empty_object :
  progress_lines (JObj []) = Ok [] /\ ~ In "- Status: `unknown`" [].
Proof. split; [reflexivity | simpl; tauto]. Qed.

Lemma dget_none o k d : py_get o k = None -> dget o k d = d.
Proof. unfold dget. now intros ->. Qed.

Lemma dget_some o k d v : py_get o k = Some v -> dget o k d = v.
Proof. unfold dget. now intros ->. Qed.

Lemma progress_lines_obj (o : list (string * json)) :
  o <> [] -> list_or_absent o "completed_tasks" -> list_or_absent o "failed_tasks" ->
  progress_lines (JObj o) =
  Ok (app [ progress_heading;
             "- Status: `" ++ py_str (dget o "status" (JStr "unknown")) ++ "`";
             "- Current Task: `" ++ py_str (dget o "current_task" (JStr "none")) ++ "`";
             "- Completed: " ++ nat_str (completed_count o) ++ " tasks" ]
        (app (blocked_line o)
          (app (failed_line o)
            ["- Last Updated: `" ++ py_str (dget o "last_updated" (JStr "never")) ++ "`"]))).
Proof.
  intros Hne Hc Hf. unfold list_or_absent in Hc, Hf.
  unfold progress_lines, blocked_line, failed_line, completed_count.
  replace (py_truthy (JObj o)) with true by (destruct o; [congruence|reflexivity]).
  destruct (py_get o "completed_tasks") as [[| | | |cl|]|] eqn:Ec; try contradiction;
  [rewrite (dget_some _ _ _ _ Ec) | rewrite (dget_none _ _ _ Ec)];
  destruct (py_get o "failed_tasks") as [[| | | |[|f fl]|]|] eqn:Ef; try contradiction;
  first [rewrite (dget_some _ _ _ _ Ef) | rewrite (dget_none _ _ _ Ef)];
  reflexivity.
Qed.

(** Claim C10 (amended): for a non-empty JSON object whose [completed_tasks]
    and [failed_tasks], when present, are lists, the progress block renders
    without failing and every omitted field takes its default: status
    [unknown], current task [none], 0 completed tasks, last update [never].
    The blocked line appears exactly when status is the string ["blocked"]
    (reason defaulting to [unknown]); the failed-task line exactly when
    [failed_tasks] is a non-empty list. The empty object renders no line. *)
Theorem progress_lines_defaults (o : list (string * json)) :
  (o = [] -> progress_lines (JObj o) = Ok [])
  /\ (o <> [] -> list_or_absent o "completed_tasks" -> list_or_absent o "failed_tasks" ->
      exists ls,
        progress_lines (JObj o) = Ok ls
        /\ (py_get o "status" = None -> In "- Status: `unknown`" ls)
        /\ (py_get o "current_task" = None -> In "- Current Task: `none`" ls)
        /\ (py_get o "completed_tasks" = None -> In "- Completed: 0 tasks" ls)
        /\ (py_get o "last_updated" = None -> In "- Last Updated: `never`" ls)
        /\ ((exists r, In ("- 🚫 BLOCKED: " ++ r) ls)
            <-> py_get o "status" = Some (JStr "blocked"))
        /\ (py_get o "status" = Some (JStr "blocked") ->
            py_get o "blocked_reason" = None -> In "- 🚫 BLOCKED: unknown" ls)
        /\ ((exists n, In ("- Failed Tasks: " ++ n) ls)
            <-> exists l, py_get o "failed_tasks" = Some (JArr l) /\ l <> [])).
Proof.
  split; [intros ->; reflexivity|].
  intros Hne Hc Hf.
  eexists. split; [exact (progress_lines_obj o Hne Hc Hf)|].
  split; [intros H; rewrite (dget_none _ _ _ H); simpl; tauto|].
  split; [intros H; rewrite (dget_none _ _ _ H); simpl; tauto|].
  split; [intros H; unfold completed_count; rewrite H; simpl; tauto|].
  split; [intros H; rewrite (dget_none _ _ _ H); simpl; rewrite !in_app_iff; simpl; tauto|].
  split; [|split].
  - split.
    + intros [r Hr]. simpl in Hr.
      destruct Hr as [Hr|[Hr|[Hr|[Hr|Hr]]]]; try discriminate Hr.
      rewrite !in_app_iff in Hr. destruct Hr as [Hr|[Hr|Hr]].
      * unfold blocked_line in Hr.
        destruct (dget o "status" JNull) as [| | |s| |] eqn:Es; try contradiction.
        destruct (s =? "blocked") eqn:Eb; [|contradiction].
        apply String.eqb_eq in Eb. subst s.
        unfold dget in Es. destruct (py_get o "status"); [now subst|discriminate].
      * unfold failed_line in Hr.
        destruct (py_get o "failed_tasks") as [[| | | |[|f fl]|]|]; simpl in Hr;
          try contradiction.
        destruct Hr as [Hr|[]]. discriminate Hr.
      * destruct Hr as [Hr|[]]. discriminate Hr.
    + intros H. eexists. rewrite !in_app_iff. right. left.
      unfold blocked_line. rewrite (dget_some _ _ _ _ H). simpl. left. reflexivity.
  - intros H Hb. rewrite !in_app_iff. right. left.
    unfold blocked_line. rewrite (dget_some _ _ _ _ H), (dget_none _ _ _ Hb).
    simpl. left. reflexivity.
  - split.
    + intros [n Hn]. simpl in Hn.
      destruct Hn as [Hn|[Hn|[Hn|[Hn|Hn]]]]; try discriminate Hn.
      rewrite !in_app_iff in Hn. destruct Hn as [Hn|[Hn|Hn]].
      * unfold blocked_line in Hn.
        destruct (match dget o "status" JNull with JStr s => s =? "blocked" | _ => false end);
          [|contradiction].
        destruct Hn as [Hn|[]]. discriminate Hn.
      * unfold failed_line in Hn.
        destruct (py_get o "failed_tasks") as [[| | | |[|f fl]|]|]; simpl in Hn;
          try contradiction.
        eexists. split; [reflexivity|discriminate].
      * destruct Hn as [Hn|[]]. discriminate Hn.
    + intros [l [H Hl]]. destruct l as [|x l]; [congruence|].
      eexists. rewrite !in_app_iff. right. right. left.
      unfold failed_line. rewrite H. simpl. left. reflexivity.
Qed.

Lemma progress_lines_defaults_witness :
  [("status", JStr "blocked")] <> []
  /\ list_or_absent [("status", JStr "blocked")] "completed_tasks"
  /\ list_or_absent [("status", JStr "blocked")] "failed_tasks"
  /\ exists ls, progress_lines (JObj [("status", JStr "blocked")]) = Ok ls
                /\ In "- Completed: 0 tasks" ls
                /\ In "- 🚫 BLOCKED: unknown" ls.
Proof.
  assert (H1 : [("status", JStr "blocked")] <> []) by discriminate.
  assert (H2 : list_or_absent [("status", JStr "blocked")] "completed_tasks") by exact I.
  assert (H3 : list_or_absent [("status", JStr "blocked")] "failed_tasks") by exact I.
  split; [exact H1|]. split; [exact H2|]. split; [exact H3|].
  destruct (proj2 (progress_lines_defaults [("status", JStr "blocked")]) H1 H2 H3)
    as [ls [Hls [_ [_ [Hc [_ [_ [Hb _]]]]]]]].
  exists ls. split; [exact Hls|]. split.
  - apply Hc. reflexivity.
  - apply Hb; reflexivity.
Defined.

(** ** Failure isolation *)

(** Claim C3 (failing input): discovery finds both specs; the record of
    [v/specs/b] alone builds fine, but the resource probe of [w/specs/a] runs
    [.split()[0]] on the empty [du] output and raises [IndexError], which
    escapes [format_report]: no report at all, so [v/specs/b]'s record is
    lost too. *)
Theorem format_report_du_empty_output_aborts :
  scan_specs fs_quote_service [] = [spec_v; spec_w]
  /\ snd (run_cmd (env_sys env_quote) quote_du_cmd None) = Ok ""
  /\ (exists l, snd (spec_section (env_sys env_quote) false spec_v) = Ok l)
  /\ snd (format_report env_quote [spec_v; spec_w] false) = Exc IndexError
  /\ snd (format_report env_quote [spec_v; spec_w] true) = Exc IndexError.
Proof.
  split; [reflexivity|]. split; [reflexivity|]. split.
  - eexists. vm_compute. reflexivity.
  - split; vm_compute; reflexivity.
Qed.

(** Claim C5 (failing input): [get_ralph_status] returns the list [[1]]
    instead of the absent result; the renderer then calls [.get] on it and
    raises [AttributeError], so neither this spec's other probes nor the
    other spec's record are produced. *)
Theorem format_report_list_progress_aborts :
  get_ralph_status (env_sys env_list_progress) spec_w = JArr [JNum "1"]
  /\ (exists l, snd (spec_section (env_sys env_list_progress) true spec_v) = Ok l)
  /\ snd (spec_section (env_sys env_list_progress) true spec_w) = Exc AttributeError
  /\ fst (spec_section (env_sys env_list_progress) true spec_w) = []
  /\ snd (format_report env_list_progress [spec_v; spec_w] true) = Exc AttributeError.
Proof.
  split; [reflexivity|]. split; [eexists; vm_compute; reflexivity|].
  split; [reflexivity|]. split; [reflexivity|]. vm_compute. reflexivity.
Qed.

(** The parts of C5 the code does meet: an absent, unreadable or undecodable
    progress file gives the absent result. *)
Lemma get_ralph_status_absent (sy : system) (p : path) :
  (lookup (sys_fs sy) (p ++ [".ralph"; "progress.json"])%list = None
   \/ (exists ch, lookup (sys_fs sy) (p ++ [".ralph"; "progress.json"])%list = Some (NDir ch))
   \/ lookup (sys_fs sy) (p ++ [".ralph"; "progress.json"])%list = Some (NFile Unreadable)
   \/ exists s, lookup (sys_fs sy) (p ++ [".ralph"; "progress.json"])%list = Some (NFile (Text s))
                /\ sys_json_load sy (univ_nl s) = None) ->
  get_ralph_status sy p = JNull.
Proof.
  unfold get_ralph_status, path_exists.
  intros [H|[[ch H]|[H|[s [H Hj]]]]]; rewrite H; simpl; try reflexivity.
  now rewrite Hj.
Qed.

(** ** Spec discovery *)

Lemma names_nodup_NoDup (l : list string) : names_nodup l = true -> NoDup l.
Proof.
  induction l as [|x r IH]; simpl; intros H; [constructor|].
  apply andb_true_iff in H as [H1 H2].
  constructor; [|exact (IH H2)].
  intros Hin. apply negb_true_iff in H1.
  assert (existsb (String.eqb x) r = true)
    by (apply existsb_exists; exists x; split; [exact Hin|apply String.eqb_refl]).
  congruence.
Qed.

Lemma find_child_some (n : string) (ch : list entry) (e : entry) :
  find_child n ch = Some e -> In e ch /\ entry_name e = n.
Proof.
  induction ch as [|x r IH]; simpl; [discriminate|].
  destruct (entry_name x =? n) eqn:E.
  - intros H. injection H as <-. apply String.eqb_eq in E. auto.
  - intros H. destruct (IH H). auto.
Qed.

Lemma find_child_nodup (ch : list entry) (e : entry) :
  NoDup (map entry_name ch) -> In e ch -> find_child (entry_name e) ch = Some e.
Proof.
  induction ch as [|x r IH]; simpl; [tauto|].
  intros Hnd Hin. inversion Hnd as [|? ? Hx Hr]; subst.
  destruct Hin as [<-|Hin].
  - now rewrite String.eqb_refl.
  - destruct (entry_name x =? entry_name e) eqn:E.
    + apply String.eqb_eq in E. exfalso. apply Hx. rewrite E. now apply in_map.
    + exact (IH Hr Hin).
Qed.

Lemma lookup_cons (ch : list entry) (c : string) (r : path) :
  lookup ch (c :: r) =
  match find_child c ch with Some e => lookup_entry e r | None => None end.
Proof.
  simpl. destruct (find_child c ch) as [[n d|n ch']|]; [destruct r|..]; reflexivity.
Qed.

Lemma lookup_app_dir (ch : list entry) (p : path) (ch' : list entry) (r : path) :
  lookup ch p = Some (NDir ch') -> lookup ch (p ++ r)%list = lookup ch' r.
Proof.
  revert ch. induction p as [|c p IH]; intros ch H.
  - simpl in H. injection H as <-. reflexivity.
  - simpl (_ ++ _)%list. rewrite lookup_cons. rewrite lookup_cons in H.
    destruct (find_child c ch) as [[n d|n chc]|]; [|apply IH; exact H|discriminate].
    destruct p; discriminate.
Qed.

Lemma lookup_app_some (ch : list entry) (p r : path) :
  r <> [] -> lookup ch (p ++ r)%list <> None ->
  exists ch', lookup ch p = Some (NDir ch').
Proof.
  revert ch. induction p as [|c p IH]; intros ch Hr H.
  - eexists. reflexivity.
  - simpl (_ ++ _)%list in H. rewrite lookup_cons in H. rewrite lookup_cons.
    destruct (find_child c ch) as [[n d|n chc]|]; [|apply IH; assumption|tauto].
    destruct p, r; simpl in H; tauto.
Qed.

Lemma lookup_wf (ch : list entry) (p : path) (ch' : list entry) :
  names_nodup (map entry_name ch) && forallb wf_entry ch = true ->
  lookup ch p = Some (NDir ch') ->
  names_nodup (map entry_name ch') && forallb wf_entry ch' = true.
Proof.
  revert ch. induction p as [|c p IH]; intros ch Hwf H.
  - simpl in H. injection H as <-. exact Hwf.
  - rewrite lookup_cons in H.
    destruct (find_child c ch) as [e|] eqn:Ef; [|discriminate].
    apply find_child_some in Ef as [Hin _].
    apply andb_true_iff in Hwf as [_ Hall].
    rewrite forallb_forall in Hall. specialize (Hall e Hin).
    destruct e as [n d|n chc]; [destruct p; discriminate|].
    exact (IH chc Hall H).
Qed.

Lemma rglob_entry_sound (e : entry) :
  wf_entry e = true ->
  forall pre q, In q (rglob_entry pre e) ->
  exists r, q = (pre ++ entry_name e :: r)%list
            /\ last (entry_name e :: r) "" = "specs"
            /\ lookup_entry e r <> None.
Proof.
  induction e as [n d|n ch IHch] using entry_ind2; intros Hwf pre q Hq.
  - simpl in Hq. destruct (n =? "specs") eqn:E; [|contradiction].
    destruct Hq as [<-|[]]. apply String.eqb_eq in E.
    exists []. simpl. repeat split; [exact E|discriminate].
  - simpl in Hwf. apply andb_true_iff in Hwf as [Hnd Hall].
    apply names_nodup_NoDup in Hnd. rewrite forallb_forall in Hall.
    simpl in Hq. apply in_app_or in Hq as [Hq|Hq].
    + destruct (n =? "specs") eqn:E; [|contradiction].
      destruct Hq as [<-|[]]. apply String.eqb_eq in E.
      exists []. simpl. repeat split; [exact E|discriminate].
    + apply in_flat_map in Hq as [c [Hc Hq]].
      rewrite Forall_forall in IHch.
      destruct (IHch c Hc (Hall c Hc) _ _ Hq) as [r [Hqr [Hlast Hl]]].
      exists (entry_name c :: r). split; [|split].
      * rewrite Hqr. simpl. now rewrite <- app_assoc.
      * exact Hlast.
      * change (lookup ch (entry_name c :: r) <> None).
        rewrite lookup_cons, (find_child_nodup ch c Hnd Hc). exact Hl.
Qed.

Lemma rglob_entry_complete (r : path) :
  forall e pre, lookup_entry e r <> None ->
  last (entry_name e :: r) "" = "specs" ->
  In (pre ++ entry_name e :: r)%list (rglob_entry pre e).
Proof.
  induction r as [|c r IH]; intros e pre Hl Hlast.
  - simpl in Hlast. destruct e as [n d|n ch]; simpl in *;
      rewrite Hlast; simpl; left; reflexivity.
  - destruct e as [n d|n ch]; [simpl in Hl; congruence|].
    change (lookup ch (c :: r) <> None) in Hl. rewrite lookup_cons in Hl.
    destruct (find_child c ch) as [e'|] eqn:Ef; [|congruence].
    apply find_child_some in Ef as [Hin Hname].
    simpl. apply in_or_app. right. apply in_flat_map. exists e'. split; [exact Hin|].
    replace (pre ++ n :: c :: r)%list with ((pre ++ [n]) ++ entry_name e' :: r)%list
      by (rewrite Hname, <- app_assoc; reflexivity).
    apply IH; [exact Hl|].
    rewrite Hname. exact Hlast.
Qed.

Lemma rglob_specs_iff (fs : list entry) (ws q : path) :
  wf_fs fs = true ->
  In q (rglob_specs fs ws)
  <-> exists r, q = (ws ++ r)%list /\ r <> [] /\ last r "" = "specs"
               /\ lookup fs q <> None.
Proof.
  intros Hwf. unfold rglob_specs. split.
  - destruct (lookup fs ws) as [[d|ch]|] eqn:Ews; try contradiction.
    pose proof (lookup_wf fs ws ch Hwf Ews) as Hwfc.
    apply andb_true_iff in Hwfc as [Hnd Hall].
    apply names_nodup_NoDup in Hnd. rewrite forallb_forall in Hall.
    intros Hq. apply in_flat_map in Hq as [e [He Hq]].
    destruct (rglob_entry_sound e (Hall e He) ws q Hq) as [r [Hqr [Hlast Hl]]].
    exists (entry_name e :: r). split; [exact Hqr|]. split; [discriminate|].
    split; [exact Hlast|].
    rewrite Hqr, (lookup_app_dir fs ws ch _ Ews), lookup_cons,
      (find_child_nodup ch e Hnd He). exact Hl.
  - intros [r [Hqr [Hr [Hlast Hl]]]].
    rewrite Hqr in Hl.
    destruct (lookup_app_some fs ws r Hr Hl) as [ch Ews].
    rewrite Ews. rewrite (lookup_app_dir fs ws ch r Ews) in Hl.
    destruct r as [|c r]; [congruence|].
    rewrite lookup_cons in Hl.
    destruct (find_child c ch) as [e|] eqn:Ef; [|congruence].
    apply find_child_some in Ef as [Hin Hname].
    apply in_flat_map. exists e. split; [exact Hin|].
    rewrite Hqr, <- Hname. apply rglob_entry_complete; [exact Hl|].
    rewrite Hname. exact Hlast.
Qed.

Lemma path_leb_total (p q : path) : path_leb p q = false -> path_leb q p = true.
Proof.
  revert q. induction p as [|a p IH]; intros q H; [discriminate|].
  destruct q as [|b q]; [reflexivity|].
  simpl in *. rewrite (String.compare_antisym b a).
  destruct (String.compare a b); simpl in *; try discriminate; auto.
Qed.

Lemma insert_path_sorted (x : path) (l : list path) :
  Sorted path_le l -> Sorted path_le (insert_path x l).
Proof.
  induction l as [|y l IH]; simpl; intros Hs.
  - repeat constructor.
  - destruct (path_leb x y) eqn:E.
    + constructor; [exact Hs|]. constructor. exact E.
    + apply Sorted_inv in Hs as [Hs Hhd].
      constructor; [exact (IH Hs)|].
      destruct l as [|z l]; simpl.
      * constructor. exact (path_leb_total x y E).
      * destruct (path_leb x z).
        -- constructor. exact (path_leb_total x y E).
        -- inversion Hhd; subst. constructor. assumption.
Qed.

Lemma insert_path_perm (x : path) (l : list path) :
  Permutation (x :: l) (insert_path x l).
Proof.
  induction l as [|y l IH]; simpl; [reflexivity|].
  destruct (path_leb x y); [reflexivity|].
  eapply perm_trans; [apply perm_swap|]. constructor. exact IH.
Qed.

Lemma sort_paths_sorted (l : list path) : Sorted path_le (sort_paths l).
Proof.
  induction l as [|x l IH]; simpl; [constructor|]. now apply insert_path_sorted.
Qed.

Lemma sort_paths_perm (l : list path) : Permutation l (sort_paths l).
Proof.
  induction l as [|x l IH]; simpl; [reflexivity|].
  eapply perm_trans; [apply perm_skip; exact IH|]. apply insert_path_perm.
Qed.

Lemma is_dir_lookup (fs : list entry) (p : path) :
  is_dir fs p = true -> exists ch, lookup fs p = Some (NDir ch).
Proof.
  unfold is_dir. destruct (lookup fs p) as [[d|ch]|]; try discriminate. eauto.
Qed.

Lemma scan_specs_iff (fs : list entry) (ws p : path) :
  wf_fs fs = true -> In p (scan_specs fs ws) <-> discovered_spec fs ws p.
Proof.
  intros Hwf. unfold scan_specs.
  split.
  - intros Hp. apply (Permutation_in _ (Permutation_sym (sort_paths_perm _))) in Hp.
    apply in_flat_map in Hp as [item [Hitem Hp]].
    destruct (is_dir fs item) eqn:Hd; [|contradiction].
    destruct (is_dir_lookup fs item Hd) as [ch Hch]. rewrite Hch in Hp.
    apply in_flat_map in Hp as [n [Hn Hp]].
    destruct (is_dir fs (item ++ [n])%list && path_exists fs ((item ++ [n]) ++ [".ralph"])%list)
      eqn:Hc; [|contradiction].
    destruct Hp as [<-|[]].
    apply andb_true_iff in Hc as [Hc1 Hc2].
    apply (rglob_specs_iff fs ws item Hwf) in Hitem as [r [-> [Hr [Hlast _]]]].
    exists r, n. split; [now rewrite <- app_assoc|]. auto.
  - intros [r [c [-> [Hr [Hlast [Hq [Hpd Hm]]]]]]].
    apply (Permutation_in _ (sort_paths_perm _)).
    apply in_flat_map. exists (ws ++ r)%list. split.
    + apply (rglob_specs_iff fs ws _ Hwf). exists r. repeat split; auto.
      destruct (is_dir_lookup fs _ Hq) as [ch Hch]. congruence.
    + rewrite Hq. destruct (is_dir_lookup fs _ Hq) as [ch Hch]. rewrite Hch.
      apply in_flat_map. exists c. split.
      * destruct (is_dir_lookup fs _ Hpd) as [chp Hp].
        rewrite app_assoc, (lookup_app_dir fs _ ch [c] Hch), lookup_cons in Hp.
        destruct (find_child c ch) as [e|] eqn:Ef; [|discriminate].
        apply find_child_some in Ef as [Hin <-]. now apply in_map.
      * rewrite <- !app_assoc. rewrite <- !app_assoc in Hm.
        rewrite Hpd, Hm. simpl. left. reflexivity.
Qed.

(** Claim C2 (counterexample): a spec directory whose [.ralph] is a plain
    file is discovered, although the claim requires a [.ralph] directory. *)
Lemma scan_specs_accepts_marker_file :
  scan_specs fs_marker_file ["w"] = [["w"; "specs"; "a"]]
  /\ ~ claimed_spec fs_marker_file ["w"] ["w"; "specs"; "a"].
Proof.
  split; [reflexivity|].
  intros [r [c [_ [_ [_ [_ Hm]]]]]].
  vm_compute in Hm. discriminate Hm.
Qed.

(** A workspace root that is itself named [specs] is not searched as a
    [specs] directory: [rglob] only matches below the root. *)
Example scan_specs_root_named_specs :
  scan_specs [dir "specs" [dir "a" [ralph_dir]]] ["specs"] = [].
Proof. reflexivity. Qed.

(** Claim C2 (amended): in a well-formed tree, [scan_specs] returns exactly
    the directories that are immediate children of a directory named
    [specs] lying strictly below the workspace root and that hold an entry
    named [.ralph] (file or directory), sorted by path. *)
Theorem scan_specs_exact (fs : list entry) (ws : path) :
  wf_fs fs = true ->
  (forall p, In p (scan_specs fs ws) <-> discovered_spec fs ws p)
  /\ Sorted path_le (scan_specs fs ws).
Proof.
  intros Hwf. split.
  - intros p. exact (scan_specs_iff fs ws p Hwf).
  - apply sort_paths_sorted.
Qed.

Lemma scan_specs_exact_witness :
  wf_fs fs_two_specs = true
  /\ (forall p, In p (scan_specs fs_two_specs ["w"]) <-> discovered_spec fs_two_specs ["w"] p)
  /\ Sorted path_le (scan_specs fs_two_specs ["w"]).
Proof.
  assert (H : wf_fs fs_two_specs = true) by reflexivity.
  split; [exact H|]. exact (scan_specs_exact fs_two_specs ["w"] H).
Defined.

(** ** get_git_info: the nearest repository *)

Lemma firstn_parent (p : path) (k : nat) :
  k <= length p - 1 -> firstn k (parent p) = firstn k p.
Proof.
  intros Hk. unfold parent. rewrite removelast_firstn_len, firstn_firstn.
  f_equal. lia.
Qed.

Lemma find_repo_root_nearest (fs : list entry) (fuel : nat) (p : path) (k : nat) :
  length p < fuel -> k <= length p ->
  path_exists fs (firstn k p ++ [".git"])%list = true ->
  (forall k', k < k' <= length p -> path_exists fs (firstn k' p ++ [".git"])%list = false) ->
  find_repo_root fs fuel p = Some (firstn k p).
Proof.
  revert p. induction fuel as [|f IH]; intros p Hf Hk Hgit Hnear; [lia|].
  simpl. destruct (path_eqb p (parent p)) eqn:Eroot.
  - apply path_eqb_parent in Eroot. subst p. simpl in Hk.
    replace k with 0 by lia. reflexivity.
  - assert (Hp : p <> []) by (intros ->; discriminate Eroot).
    assert (Hlen : length p <> 0) by (destruct p; [congruence|discriminate]).
    destruct (path_exists fs (p ++ [".git"])%list) eqn:Egit.
    + destruct (Nat.eq_dec k (length p)) as [->|Hne].
      * now rewrite firstn_all.
      * specialize (Hnear (length p) ltac:(lia)). rewrite firstn_all in Hnear. congruence.
    + assert (Hlt : k < length p).
      { destruct (Nat.eq_dec k (length p)) as [->|Hne]; [|lia].
        rewrite firstn_all in Hgit. congruence. }
      rewrite <- (firstn_parent p k) by lia.
      apply IH.
      * rewrite parent_length by exact Hp. lia.
      * rewrite parent_length by exact Hp. lia.
      * rewrite firstn_parent by lia. exact Hgit.
      * intros k' Hk'. rewrite parent_length in Hk' by exact Hp.
        rewrite firstn_parent by lia. apply Hnear. lia.
Qed.

(** The ascent stops at the nearest enclosing repository: when the prefix
    [firstn k spec_dir] holds [.git] and no longer prefix does, the Git
    probe runs exactly the branch, log and status commands, in this order,
    with that prefix as working directory, and records their [run_cmd]
    results, the log split on newlines. *)
Theorem get_git_info_nearest_root (sy : system) (spec_dir : path) (k : nat) :
  k <= length spec_dir ->
  path_exists (sys_fs sy) (firstn k spec_dir ++ [".git"])%list = true ->
  (forall k', k < k' <= length spec_dir ->
     path_exists (sys_fs sy) (firstn k' spec_dir ++ [".git"])%list = false) ->
  get_git_info sy spec_dir =
    ([(git_branch_cmd, Some (firstn k spec_dir)); (git_log_cmd, Some (firstn k spec_dir));
      (git_status_cmd, Some (firstn k spec_dir))],
     Ok (Some {| gi_branch := run_cmd_value (sys_run sy git_branch_cmd (Some (firstn k spec_dir)));
                 gi_recent_commits :=
                   split_nl (run_cmd_value (sys_run sy git_log_cmd (Some (firstn k spec_dir))));
                 gi_status := run_cmd_value (sys_run sy git_status_cmd (Some (firstn k spec_dir))) |})).
Proof.
  intros Hk Hgit Hnear. unfold get_git_info.
  rewrite (find_repo_root_nearest (sys_fs sy) (S (length spec_dir)) spec_dir k
             (Nat.lt_succ_diag_r _) Hk Hgit Hnear).
  rewrite Hgit. reflexivity.
Qed.

Lemma get_git_info_nearest_root_witness :
  1 <= length spec_a
  /\ path_exists fs_git_root (firstn 1 spec_a ++ [".git"])%list = true
  /\ (forall k', 1 < k' <= length spec_a ->
        path_exists fs_git_root (firstn k' spec_a ++ [".git"])%list = false)
  /\ fst (get_git_info sys_git_root spec_a)
     = [(git_branch_cmd, Some ["w"]); (git_log_cmd, Some ["w"]); (git_status_cmd, Some ["w"])].
Proof.
  assert (H1 : 1 <= length spec_a) by (simpl; lia).
  assert (H2 : path_exists fs_git_root (firstn 1 spec_a ++ [".git"])%list = true)
    by reflexivity.
  assert (H3 : forall k', 1 < k' <= length spec_a ->
                 path_exists fs_git_root (firstn k' spec_a ++ [".git"])%list = false).
  { intros k' Hk'. simpl in Hk'. destruct k' as [|[|[|[|k']]]]; try lia; reflexivity. }
  split; [exact H1|]. split; [exact H2|]. split; [exact H3|].
  rewrite (get_git_info_nearest_root sys_git_root spec_a 1 H1 H2 H3). reflexivity.
Defined.

Lemma split_nl_from_nonempty (cur s : string) : split_nl_from cur s <> [].
Proof.
  revert cur. induction s as [|c s IH]; intros cur; simpl; [discriminate|].
  destruct (Ascii.eqb c LF); [discriminate|apply IH].
Qed.

Lemma length_flat_map_le1 {A B} (f : A -> list B) (l : list A) :
  (forall a, length (f a) <= 1) -> length (flat_map f l) <= length l.
Proof.
  intros Hf. induction l as [|a l IH]; simpl; [lia|].
  rewrite length_app. specialize (Hf a). lia.
Qed.

(** Whenever a repository is found, the Git block has its heading, at most
    one branch line, the [- Recent Commits:] heading (even for an empty log
    output, which splits into one empty piece), at most three commit lines,
    each the right-stripped form of a non-blank line among the first three
    log lines, and at most one uncommitted-changes line. *)
Theorem git_lines_found_repo (sy : system) (spec_dir : path) (g : git_info) :
  snd (get_git_info sy spec_dir) = Ok (Some g) ->
  exists bl cl sl,
    git_lines (Some g) = (nl ++ "**Git Status:**") :: app bl ("- Recent Commits:" :: app cl sl)
    /\ length bl <= 1 /\ length cl <= 3 /\ length sl <= 1
    /\ Forall (fun l => exists c, In c (firstn 3 (gi_recent_commits g))
                                 /\ strip c <> "" /\ l = "  - " ++ rstrip c) cl.
Proof.
  intros H.
  assert (Hc : gi_recent_commits g <> []).
  { unfold get_git_info in H.
    destruct (find_repo_root _ _ _) as [r|]; [|discriminate].
    destruct (path_exists _ _); [|discriminate].
    simpl in H. injection H as <-. apply split_nl_from_nonempty. }
  unfold git_lines.
  destruct (gi_recent_commits g) as [|c0 cs] eqn:Ec; [congruence|].
  exists (if gi_branch g =? "" then [] else ["- Branch: `" ++ gi_branch g ++ "`"]).
  exists (flat_map (fun c => if strip c =? "" then [] else ["  - " ++ rstrip c])
            (firstn 3 (c0 :: cs))).
  exists (if gi_status g =? "" then []
          else ["- Uncommitted Changes:" ++ nl ++ "```" ++ nl ++ gi_status g ++ nl ++ "```"]).
  split; [reflexivity|].
  split; [destruct (gi_branch g =? ""); simpl; lia|].
  split.
  { eapply Nat.le_trans; [apply length_flat_map_le1|].
    - intros c. destruct (strip c =? ""); simpl; lia.
    - rewrite length_firstn. lia. }
  split; [destruct (gi_status g =? ""); simpl; lia|].
  apply Forall_forall. intros l Hl. apply in_flat_map in Hl as [c [Hc' Hl]].
  destruct (strip c =? "") eqn:Es; [contradiction|].
  destruct Hl as [<-|[]]. exists c. split; [exact Hc'|]. split; [|reflexivity].
  apply String.eqb_neq. exact Es.
Qed.

Lemma git_lines_found_repo_witness :
  snd (get_git_info sys_git_root spec_a)
    = Ok (Some {| gi_branch := ""; gi_recent_commits := [""]; gi_status := "" |})
  /\ In "- Recent Commits:"
        (git_lines (Some {| gi_branch := ""; gi_recent_commits := [""]; gi_status := "" |})).
Proof.
  assert (H : snd (get_git_info sys_git_root spec_a)
              = Ok (Some {| gi_branch := ""; gi_recent_commits := [""]; gi_status := "" |}))
    by reflexivity.
  split; [exact H|].
  destruct (git_lines_found_repo sys_git_root spec_a _ H) as [bl [cl [sl [E _]]]].
  rewrite E. right. apply in_or_app. right. left. reflexivity.
Defined.

(** ** get_session_log and the session block *)

Lemma lastn_lastn {A} (m n : nat) (l : list A) : m <= n -> lastn m (lastn n l) = lastn m l.
Proof.
  intros H. unfold lastn. rewrite skipn_skipn, length_skipn. f_equal. lia.
Qed.

Lemma lastn_nil {A} (n : nat) (l : list A) : 0 < n -> lastn n l = [] -> l = [].
Proof.
  intros Hn H. destruct l as [|x l]; [reflexivity|].
  assert (E : length (lastn n (x :: l)) = 0) by now rewrite H.
  unfold lastn in E. rewrite length_skipn in E. change (length (x :: l)) with (S (length l)) in E. lia.
Qed.

(** The session-log probe never fails: a missing, unreadable or directory
    [session.log] gives no line, a readable one its last 10 lines (after
    universal-newline translation). The verbose session block built from it
    is the heading followed by the last 5 lines of the file, each
    right-stripped and indented, and is absent for an empty file; the
    non-verbose report has no session block. *)
Theorem session_block_last_lines (sy : system) (spec_dir : path) :
  get_session_log sy spec_dir
    = match lookup (sys_fs sy) (spec_dir ++ [".ralph"; "session.log"])%list with
      | Some (NFile (Text s)) => lastn 10 (readlines (univ_nl s))
      | _ => []
      end
  /\ session_lines true (get_session_log sy spec_dir)
    = match lookup (sys_fs sy) (spec_dir ++ [".ralph"; "session.log"])%list with
      | Some (NFile (Text s)) =>
          match readlines (univ_nl s) with
          | [] => []
          | ls => session_heading :: map (fun l => "  " ++ rstrip l) (lastn 5 ls)
          end
      | _ => []
      end
  /\ session_lines false (get_session_log sy spec_dir) = [].
Proof.
  assert (E : get_session_log sy spec_dir
    = match lookup (sys_fs sy) (spec_dir ++ [".ralph"; "session.log"])%list with
      | Some (NFile (Text s)) => lastn 10 (readlines (univ_nl s))
      | _ => []
      end).
  { unfold get_session_log, path_exists. cbv zeta.
    destruct (lookup _ _) as [[[s|]|ch]|]; reflexivity. }
  split; [exact E|]. split.
  - rewrite E. destruct (lookup _ _) as [[[s|]|ch]|]; try reflexivity.
    destruct (readlines (univ_nl s)) as [|x r] eqn:Er; [reflexivity|].
    destruct (lastn 10 (x :: r)) as [|y z] eqn:El.
    + apply lastn_nil in El; [discriminate|lia].
    + cbn [session_lines]. rewrite <- El, lastn_lastn by lia. reflexivity.
  - destruct (get_session_log sy spec_dir); reflexivity.
Qed.

(** ** get_resource_usage: what is measured and how it fails *)

Lemma dict_set_fresh {V} (d : list (string * V)) (k : string) (v : V) :
  ~ In k (map fst d) -> dict_set d k v = (d ++ [(k, v)])%list.
Proof.
  induction d as [|[k' v'] d IH]; simpl; intros H; [reflexivity|].
  destruct (k' =? k) eqn:E.
  - apply String.eqb_eq in E. subst. tauto.
  - f_equal. apply IH. tauto.
Qed.

Lemma resource_loop_skip (sy : system) (sd : path) (n : string) (ns : list string) acc :
  measured (sys_fs sy) sd n = false ->
  resource_loop sy sd (n :: ns) acc = resource_loop sy sd ns acc.
Proof.
  intros Hm. unfold measured in Hm. cbn [resource_loop].
  destruct (is_dir (sys_fs sy) (sd ++ [n])%list); [|reflexivity].
  simpl in Hm. rewrite Hm. reflexivity.
Qed.

Lemma resource_loop_step (sy : system) (sd : path) (n : string) (ns : list string) acc :
  measured (sys_fs sy) sd n = true ->
  resource_loop sy sd (n :: ns) acc
  = (out <- run_cmd sy (du_of sd n) None ;;
     size <- first_word out ;;
     resource_loop sy sd ns (dict_set acc n size)).
Proof.
  intros Hm. unfold measured in Hm. apply andb_true_iff in Hm as [Hd He].
  cbn [resource_loop]. rewrite Hd, He. reflexivity.
Qed.

Lemma resource_loop_ok (sy : system) (sd : path) (ns : list string) acc :
  NoDup ns -> (forall n, In n ns -> ~ In n (map fst acc)) ->
  (forall n, In n ns -> measured (sys_fs sy) sd n = true ->
     split_ws (run_cmd_value (sys_run sy (du_of sd n) None)) <> []) ->
  resource_loop sy sd ns acc
  = (map (fun n => (du_of sd n, None)) (filter (measured (sys_fs sy) sd) ns),
     Ok (app acc (map (fun n => (n, hd "" (split_ws (run_cmd_value (sys_run sy (du_of sd n) None)))))
                      (filter (measured (sys_fs sy) sd) ns)))).
Proof.
  revert acc. induction ns as [|n ns IH]; intros acc Hnd Hfresh Hword.
  - simpl. now rewrite app_nil_r.
  - inversion Hnd as [|? ? Hn Hnd']; subst.
    cbn [filter]. destruct (measured (sys_fs sy) sd n) eqn:Em.
    + rewrite (resource_loop_step _ _ _ _ _ Em).
      pose proof (Hword n (or_introl eq_refl) Em) as Hw.
      unfold bind at 1, run_cmd.
      unfold first_word, bind, ret, raise.
      destruct (split_ws (run_cmd_value (sys_run sy (du_of sd n) None))) as [|w ws] eqn:Ew;
        [congruence|].
      rewrite dict_set_fresh by (apply Hfresh; left; reflexivity).
      rewrite IH.
      * cbn [map hd fst snd]. rewrite Ew. simpl. rewrite <- app_assoc. reflexivity.
      * exact Hnd'.
      * intros m Hm. rewrite map_app, in_app_iff. simpl.
        intros [Hm'|[Hm'|[]]]; [exact (Hfresh m (or_intror Hm) Hm')|subst; contradiction].
      * intros m Hm. apply Hword. right. exact Hm.
    + rewrite (resource_loop_skip _ _ _ _ _ Em). apply IH.
      * exact Hnd'.
      * intros m Hm. apply Hfresh. right. exact Hm.
      * intros m Hm. apply Hword. right. exact Hm.
Qed.

(** In a [services] directory whose entries have distinct names, the
    resource probe runs one [du] command (without working directory) per
    subdirectory that holds [node_modules], in listing order, and nothing
    for the other entries; when each of these outputs has a first word, it
    records exactly those services, in listing order, each with the first
    word of its [du] output. *)
Theorem get_resource_usage_measures (sy : system) (spec_dir : path) (ch : list entry) :
  lookup (sys_fs sy) (parent (parent spec_dir) ++ ["services"])%list = Some (NDir ch) ->
  NoDup (map entry_name ch) ->
  (forall n, In n (map entry_name ch) ->
     measured (sys_fs sy) (parent (parent spec_dir) ++ ["services"])%list n = true ->
     split_ws (run_cmd_value (sys_run sy (du_of (parent (parent spec_dir) ++ ["services"])%list n)
                                None)) <> []) ->
  let sd := (parent (parent spec_dir) ++ ["services"])%list in
  let sel := filter (measured (sys_fs sy) sd) (map entry_name ch) in
  get_resource_usage sy spec_dir
  = (map (fun n => (du_of sd n, None)) sel,
     Ok (map (fun n => (n, hd "" (split_ws (run_cmd_value (sys_run sy (du_of sd n) None))))) sel)).
Proof.
  intros Hl Hnd Hw sd sel.
  unfold get_resource_usage, path_exists. cbv zeta.
  rewrite Hl. rewrite resource_loop_ok; [reflexivity|exact Hnd|intros n _ []|exact Hw].
Qed.

Lemma get_resource_usage_measures_witness :
  lookup fs_services (parent (parent spec_a) ++ ["services"])%list
    = Some (NDir [ dir "api" [ dir "node_modules" [] ]; EFile "notes.txt" (Text "");
                   dir "web" [] ])
  /\ NoDup (map entry_name [ dir "api" [ dir "node_modules" [] ]; EFile "notes.txt" (Text "");
                              dir "web" [] ])
  /\ get_resource_usage sys_services spec_a
     = ([(du_of ["w"; "services"] "api", None)], Ok [("api", "120M")]).
Proof.
  set (ch := [ dir "api" [ dir "node_modules" [] ]; EFile "notes.txt" (Text "");
               dir "web" [] ]).
  assert (H1 : lookup fs_services (parent (parent spec_a) ++ ["services"])%list
               = Some (NDir ch)) by reflexivity.
  assert (H2 : NoDup (map entry_name ch)).
  { simpl. repeat constructor; simpl; intuition discriminate. }
  assert (H3 : forall n, In n (map entry_name ch) ->
     measured fs_services (parent (parent spec_a) ++ ["services"])%list n = true ->
     split_ws (run_cmd_value (services_run (du_of (parent (parent spec_a) ++ ["services"])%list n)
                                None)) <> []).
  { intros n Hn Hm. simpl in Hn.
    destruct Hn as [<-|[<-|[<-|[]]]]; vm_compute in Hm; try discriminate Hm.
    vm_compute. discriminate. }
  split; [exact H1|]. split; [exact H2|].
  rewrite (get_resource_usage_measures sys_services spec_a ch H1 H2 H3).
  vm_compute. reflexivity.
Defined.

Lemma resource_loop_result (sy : system) (sd : path) (ns : list string) acc :
  (snd (resource_loop sy sd ns acc) = Exc IndexError
   \/ exists res, snd (resource_loop sy sd ns acc) = Ok res)
  /\ ((exists res, snd (resource_loop sy sd ns acc) = Ok res)
      <-> forall n, In n ns -> measured (sys_fs sy) sd n = true ->
            split_ws (run_cmd_value (sys_run sy (du_of sd n) None)) <> []).
Proof.
  revert acc. induction ns as [|n ns IH]; intros acc.
  - simpl. split; [right; eauto|]. split; [intros _ n []|eauto].
  - destruct (measured (sys_fs sy) sd n) eqn:Em.
    + rewrite (resource_loop_step _ _ _ _ _ Em).
      unfold bind at 1, run_cmd.
      unfold first_word, bind, ret, raise.
      destruct (split_ws (run_cmd_value (sys_run sy (du_of sd n) None))) as [|w ws] eqn:Ew.
      * simpl. split; [left; reflexivity|]. split; [intros [res H]; discriminate H|].
        intros H. exfalso. exact (H n (or_introl eq_refl) Em Ew).
      * destruct (IH (dict_set acc n w)) as [Hr Hiff].
        destruct (resource_loop sy sd ns (dict_set acc n w)) as [t r] eqn:El.
        simpl in Hr, Hiff |- *. split; [exact Hr|]. rewrite Hiff.
        split.
        -- intros H m [<-|Hm] Hmm; [rewrite Ew; discriminate|exact (H m Hm Hmm)].
        -- intros H m Hm. apply H. right. exact Hm.
    + rewrite (resource_loop_skip _ _ _ _ _ Em).
      destruct (IH acc) as [Hr Hiff]. split; [exact Hr|]. rewrite Hiff.
      split.
      * intros H m [<-|Hm] Hmm; [congruence|exact (H m Hm Hmm)].
      * intros H m Hm. apply H. right. exact Hm.
Qed.

(** The resource probe on the three shapes of [services]. A missing
    [services] directory gives the empty record and runs nothing; a
    [services] entry that is a plain file raises [NotADirectoryError]
    before any command. For a [services] directory that can be listed and
    whose entries can be inspected (the filesystem model has no
    permissions, so the [PermissionError] of [iterdir], [is_dir] or
    [exists] on an unreadable directory is outside it), the only exception
    of the loop itself is [IndexError], raised exactly when some measured
    service has a blank [du] output. *)
Theorem get_resource_usage_failures (sy : system) (spec_dir : path) :
  match lookup (sys_fs sy) (parent (parent spec_dir) ++ ["services"])%list with
  | None => get_resource_usage sy spec_dir = ([], Ok [])
  | Some (NFile _) => get_resource_usage sy spec_dir = ([], Exc NotADirectoryError)
  | Some (NDir ch) =>
      (snd (get_resource_usage sy spec_dir) = Exc IndexError
       \/ exists res, snd (get_resource_usage sy spec_dir) = Ok res)
      /\ ((exists res, snd (get_resource_usage sy spec_dir) = Ok res)
          <-> forall n, In n (map entry_name ch) ->
                measured (sys_fs sy) (parent (parent spec_dir) ++ ["services"])%list n = true ->
                split_ws (run_cmd_value (sys_run sy
                  (du_of (parent (parent spec_dir) ++ ["services"])%list n) None)) <> [])
  end.
Proof.
  unfold get_resource_usage, path_exists. cbv zeta.
  destruct (lookup (sys_fs sy) (parent (parent spec_dir) ++ ["services"])%list)
    as [[d|ch]|]; try reflexivity.
  apply resource_loop_result.
Qed.

(** ** The verbose flag *)

Lemma spec_section_verbose (sy : system) (p : path) :
  fst (spec_section sy true p) = fst (spec_section sy false p)
  /\ same_outcome (snd (spec_section sy true p)) (snd (spec_section sy false p)).
Proof.
  unfold spec_section, bind, lift, ret.
  destruct (progress_lines (get_ralph_status sy p)) as [pl|x]; [|simpl; auto].
  destruct (get_git_info sy p) as [t1 [gi|x]]; [|simpl; auto].
  destruct (get_resource_usage sy p) as [t2 [res|x]]; simpl; auto.
Qed.

Lemma spec_sections_verbose (sy : system) (ps : list path) :
  fst (spec_sections sy true ps) = fst (spec_sections sy false ps)
  /\ same_outcome (snd (spec_sections sy true ps)) (snd (spec_sections sy false ps)).
Proof.
  induction ps as [|p ps [IHt IHo]]; [simpl; auto|].
  cbn [spec_sections].
  destruct (spec_section_verbose sy p) as [Ht Ho].
  destruct (spec_section sy true p) as [t1 r1], (spec_section sy false p) as [t1' r1'].
  simpl in Ht, Ho. subst t1'.
  destruct (spec_sections sy true ps) as [t2 r2], (spec_sections sy false ps) as [t2' r2'].
  simpl in IHt, IHo. subst t2'.
  unfold bind, ret.
  destruct r1 as [l1|x1], r1' as [l1'|x1']; simpl in Ho; try contradiction.
  - destruct r2 as [l2|x2], r2' as [l2'|x2']; simpl in IHo; try contradiction; simpl; auto.
  - simpl. auto.
Qed.

(** The verbose flag changes neither the per-spec commands nor whether the
    report fails, nor with which exception: a verbose run issues the
    commands of the non-verbose run, followed, when at least one spec was
    found and the report is produced, by the Docker probe and the two
    [which timeout] calls. A non-verbose run only issues per-spec [git]
    and [du] commands (the [du] probes run although their sizes are not
    shown), never [docker] or [which]. *)
Theorem format_report_verbose_extends (e : env) (specs : list path) :
  fst (format_report e specs true)
    = app (fst (format_report e specs false))
          (match specs with
           | [] => []
           | _ => match snd (format_report e specs false) with
                  | Ok _ => workspace_probe_cmds
                  | Exc _ => []
                  end
           end)
  /\ same_outcome (snd (format_report e specs true)) (snd (format_report e specs false))
  /\ Forall per_spec_cmd (fst (format_report e specs false)).
Proof.
  destruct specs as [|p ps]; [simpl; auto|].
  destruct (spec_sections_verbose (env_sys e) (p :: ps)) as [Ht Ho].
  pose proof (spec_sections_trace (env_sys e) false (p :: ps)) as Htr.
  destruct (system_diagnostics_trace (env_sys e)) as [Hdt [diag Hd]].
  unfold format_report, format_report_lines.
  destruct (spec_sections (env_sys e) true (p :: ps)) as [t r],
           (spec_sections (env_sys e) false (p :: ps)) as [t' r'].
  simpl in Ht, Ho, Htr. subst t'.
  destruct (system_diagnostics (env_sys e)) as [td rd].
  simpl in Hdt, Hd. subst td rd.
  unfold bind, ret.
  destruct r as [l|x], r' as [l'|x']; simpl in Ho; try contradiction; simpl.
  - rewrite !app_nil_r. auto.
  - rewrite !app_nil_r. auto.
Qed.

(** ** check_system_deps *)

(** The dependency block reads Available followed by a Path line exactly
    when [which timeout] yields a non-empty result (both calls see the same
    outcome), and Missing with no Path line otherwise. A [which] that
    times out or cannot be started yields a sentinel, which is not empty:
    the dependency is then reported as Available, with the sentinel as its
    path. *)
Theorem check_system_deps_lines (sy : system) :
  fst (check_system_deps sy) = [(which_cmd, None); (which_cmd, None)]
  /\ exists deps, snd (check_system_deps sy) = Ok deps
     /\ dep_lines deps
        = (if run_cmd_value (sys_run sy which_cmd None) =? "" then ["- timeout: ❌ Missing"]
           else ["- timeout: ✅ Available";
                 "  Path: `" ++ run_cmd_value (sys_run sy which_cmd None) ++ "`"])
     /\ match sys_run sy which_cmd None with
        | Completed _ _ => True
        | _ => exists s, String.prefix "[" s = true
                         /\ dep_lines deps = ["- timeout: ✅ Available"; "  Path: `" ++ s ++ "`"]
        end.
Proof.
  unfold check_system_deps, bind, run_cmd, ret. simpl.
  split; [reflexivity|].
  eexists. split; [reflexivity|].
  destruct (sys_run sy which_cmd None) as [rc out| |msg] eqn:E.
  - split; [|exact I].
    unfold dep_lines. simpl.
    destruct (strip out =? ""); reflexivity.
  - split; [reflexivity|]. exists "[timeout]". split; reflexivity.
  - split; [reflexivity|]. exists ("[error: " ++ msg ++ "]"). split; reflexivity.
Qed.

(** ** Edge cases of the progress block *)

(** A field that is present is rendered with Python's [str()] of its
    value, even when that value is [null] or [false] (shown as [None] or
    [False], not as the default); a present [completed_tasks] list is
    counted, and a present [blocked_reason] is shown on the blocked line. *)
Theorem progress_lines_present_fields (o : list (string * json)) :
  o <> [] -> list_or_absent o "completed_tasks" -> list_or_absent o "failed_tasks" ->
  exists ls, progress_lines (JObj o) = Ok ls
  /\ (forall v, py_get o "status" = Some v -> In ("- Status: `" ++ py_str v ++ "`") ls)
  /\ (forall v, py_get o "current_task" = Some v ->
        In ("- Current Task: `" ++ py_str v ++ "`") ls)
  /\ (forall l, py_get o "completed_tasks" = Some (JArr l) ->
        In ("- Completed: " ++ nat_str (length l) ++ " tasks") ls)
  /\ (forall v, py_get o "last_updated" = Some v ->
        In ("- Last Updated: `" ++ py_str v ++ "`") ls)
  /\ (py_get o "status" = Some (JStr "blocked") ->
      forall r, py_get o "blocked_reason" = Some r -> In ("- 🚫 BLOCKED: " ++ py_str r) ls).
Proof.
  intros Hne Hc Hf.
  eexists. split; [exact (progress_lines_obj o Hne Hc Hf)|].
  split; [intros v H; rewrite (dget_some _ _ _ _ H); simpl; tauto|].
  split; [intros v H; rewrite (dget_some _ _ _ _ H); simpl; tauto|].
  split; [intros l H; unfold completed_count; rewrite H; simpl; tauto|].
  split; [intros v H; rewrite (dget_some _ _ _ _ H); simpl; rewrite !in_app_iff; simpl; tauto|].
  intros Hs r Hr. simpl. rewrite !in_app_iff. right; right; right; right. left.
  unfold blocked_line. rewrite (dget_some _ _ _ _ Hs), (dget_some _ _ _ _ Hr).
  simpl. left. reflexivity.
Qed.

Lemma progress_lines_present_fields_witness :
  [("status", JNull)] <> []
  /\ list_or_absent [("status", JNull)] "completed_tasks"
  /\ list_or_absent [("status", JNull)] "failed_tasks"
  /\ exists ls, progress_lines (JObj [("status", JNull)]) = Ok ls
                /\ In "- Status: `None`" ls.
Proof.
  assert (H1 : [("status", JNull)] <> []) by discriminate.
  assert (H2 : list_or_absent [("status", JNull)] "completed_tasks") by exact I.
  assert (H3 : list_or_absent [("status", JNull)] "failed_tasks") by exact I.
  split; [exact H1|]. split; [exact H2|]. split; [exact H3|].
  destruct (progress_lines_present_fields [("status", JNull)] H1 H2 H3)
    as [ls [Hls [Hs _]]].
  exists ls. split; [exact Hls|]. exact (Hs JNull eq_refl).
Defined.

(** [len()] is applied to [completed_tasks] whenever the object is
    truthy, and to [failed_tasks] when that field is truthy: a present
    [completed_tasks] that is [null], a boolean or a number, or a truthy
    [failed_tasks] that is [true] or a non-zero number, makes the progress
    block raise [TypeError]. *)
Theorem progress_lines_len_type_error (o : list (string * json)) :
  (forall v, py_get o "completed_tasks" = Some v -> py_len v = Exc TypeError ->
     progress_lines (JObj o) = Exc TypeError)
  /\ (forall v, py_get o "failed_tasks" = Some v -> py_truthy v = true ->
      py_len v = Exc TypeError -> list_or_absent o "completed_tasks" ->
      progress_lines (JObj o) = Exc TypeError).
Proof.
  assert (Ht : forall k v, py_get o k = Some v -> py_truthy (JObj o) = true)
    by (intros k v H; destruct o; [discriminate|reflexivity]).
  split.
  - intros v Hg Hl. unfold progress_lines. cbv zeta.
    rewrite (Ht _ _ Hg), (dget_some _ _ _ _ Hg), Hl. reflexivity.
  - intros v Hg Htv Hl Hc. unfold progress_lines, list_or_absent in *. cbv zeta.
    rewrite (Ht _ _ Hg), (dget_some _ _ _ _ Hg), Htv, Hl.
    destruct (py_get o "completed_tasks") as [[| | | | l|]|] eqn:Ec; try contradiction.
    + rewrite (dget_some _ _ _ _ Ec). reflexivity.
    + rewrite (dget_none _ _ _ Ec). reflexivity.
Qed.

Lemma progress_lines_len_type_error_witness :
  py_get [("completed_tasks", JNull)] "completed_tasks" = Some JNull
  /\ py_len JNull = Exc TypeError
  /\ progress_lines (JObj [("completed_tasks", JNull)]) = Exc TypeError.
Proof.
  assert (H1 : py_get [("completed_tasks", JNull)] "completed_tasks" = Some JNull)
    by reflexivity.
  assert (H2 : py_len JNull = Exc TypeError) by reflexivity.
  split; [exact H1|]. split; [exact H2|].
  exact (proj1 (progress_lines_len_type_error [("completed_tasks", JNull)]) JNull H1 H2).
Defined.

(** ** scan_specs lists each spec once *)

Lemma NoDup_flat_map_disj {A B} (f : A -> list B) (l : list A) :
  NoDup l -> (forall a, In a l -> NoDup (f a)) ->
  (forall a a' b, In a l -> In a' l -> In b (f a) -> In b (f a') -> a = a') ->
  NoDup (flat_map f l).
Proof.
  induction l as [|a xs IH]; simpl; intros Hnd Hf Hdisj; [constructor|].
  inversion Hnd as [|? ? Ha Hl]; subst.
  apply NoDup_app.
  - apply Hf. left. reflexivity.
  - apply IH; [exact Hl| |].
    + intros a' Ha'. apply Hf. right. exact Ha'.
    + intros x y b Hx Hy. apply Hdisj; right; assumption.
  - intros b Hb Hb'. apply in_flat_map in Hb' as [a' [Ha' Hb']].
    assert (a = a') by (apply (Hdisj a a' b); auto).
    subst. contradiction.
Qed.

Lemma same_name_eq (ch : list entry) (a a' : entry) :
  NoDup (map entry_name ch) -> In a ch -> In a' ch -> entry_name a = entry_name a' -> a = a'.
Proof.
  intros Hnd Ha Ha' E.
  pose proof (find_child_nodup ch a Hnd Ha) as H1.
  pose proof (find_child_nodup ch a' Hnd Ha') as H2.
  rewrite E in H1. congruence.
Qed.

Lemma rglob_entry_prefix (e : entry) :
  forall pre q, In q (rglob_entry pre e) -> exists r, q = (pre ++ entry_name e :: r)%list.
Proof.
  induction e as [n d|n ch IHch] using entry_ind2; intros pre q Hq; simpl in Hq.
  - destruct (n =? "specs"); [|contradiction].
    destruct Hq as [<-|[]]. exists []. reflexivity.
  - apply in_app_or in Hq as [Hq|Hq].
    + destruct (n =? "specs"); [|contradiction].
      destruct Hq as [<-|[]]. exists []. reflexivity.
    + apply in_flat_map in Hq as [c [Hc Hq]].
      rewrite Forall_forall in IHch.
      destruct (IHch c Hc _ _ Hq) as [r ->].
      exists (entry_name c :: r). simpl. now rewrite <- app_assoc.
Qed.

Lemma flat_map_rglob_nodup (pre : path) (ch : list entry) :
  NoDup (map entry_name ch) -> (forall e, In e ch -> forall pre', NoDup (rglob_entry pre' e)) ->
  NoDup (flat_map (rglob_entry pre) ch).
Proof.
  intros Hnd Hall. apply NoDup_flat_map_disj.
  - exact (NoDup_map_inv _ _ Hnd).
  - intros a Ha. apply Hall, Ha.
  - intros a a' b Ha Ha' Hb Hb'.
    destruct (rglob_entry_prefix a pre b Hb) as [r Hr].
    destruct (rglob_entry_prefix a' pre b Hb') as [r' Hr'].
    rewrite Hr in Hr'. apply app_inv_head in Hr'. injection Hr' as En _.
    exact (same_name_eq ch a a' Hnd Ha Ha' En).
Qed.

Lemma rglob_entry_nodup (e : entry) : wf_entry e = true -> forall pre, NoDup (rglob_entry pre e).
Proof.
  induction e as [n d|n ch IHch] using entry_ind2; intros Hwf pre; simpl.
  - destruct (n =? "specs"); repeat constructor. simpl. tauto.
  - simpl in Hwf. apply andb_true_iff in Hwf as [Hnd Hall].
    apply names_nodup_NoDup in Hnd. rewrite forallb_forall in Hall.
    rewrite Forall_forall in IHch.
    apply NoDup_app.
    + destruct (n =? "specs"); repeat constructor. simpl. tauto.
    + apply flat_map_rglob_nodup; [exact Hnd|].
      intros c Hc. exact (IHch c Hc (Hall c Hc)).
    + intros b Hb Hb'. destruct (n =? "specs"); [|contradiction].
      destruct Hb as [<-|[]].
      apply in_flat_map in Hb' as [c [_ Hb']].
      destruct (rglob_entry_prefix c _ _ Hb') as [r Hr].
      apply (f_equal (@length string)) in Hr.
      rewrite !length_app in Hr. simpl in Hr. lia.
Qed.

(** In a well-formed tree, discovery never lists a spec twice, even when
    [specs] directories are nested (a [specs] directory inside a spec or
    inside another [specs] directory). *)
Theorem scan_specs_nodup (fs : list entry) (ws : path) :
  wf_fs fs = true -> NoDup (scan_specs fs ws).
Proof.
  intros Hwf. unfold scan_specs.
  eapply Permutation_NoDup; [apply sort_paths_perm|].
  assert (Hout : forall item b,
            In b (if is_dir fs item then
                    match lookup fs item with
                    | Some (NDir ch) =>
                        flat_map (fun n =>
                          if is_dir fs (item ++ [n])%list
                             && path_exists fs ((item ++ [n]) ++ [".ralph"])%list
                          then [(item ++ [n])%list] else []) (map entry_name ch)
                    | _ => []
                    end
                  else []) ->
            exists n, b = (item ++ [n])%list).
  { intros item b Hb. destruct (is_dir fs item); [|contradiction].
    destruct (lookup fs item) as [[d|ch]|]; try contradiction.
    apply in_flat_map in Hb as [n [_ Hb]].
    destruct (_ && _); [|contradiction]. destruct Hb as [<-|[]]. eauto. }
  apply NoDup_flat_map_disj.
  - unfold rglob_specs. destruct (lookup fs ws) as [[d|ch]|] eqn:E; try constructor.
    pose proof (lookup_wf fs ws ch Hwf E) as Hw.
    apply andb_true_iff in Hw as [Hnd Hall].
    apply names_nodup_NoDup in Hnd. rewrite forallb_forall in Hall.
    apply flat_map_rglob_nodup; [exact Hnd|].
    intros c Hc. exact (rglob_entry_nodup c (Hall c Hc)).
  - intros item _. destruct (is_dir fs item) eqn:Hd; [|constructor].
    destruct (is_dir_lookup fs item Hd) as [ch Hch]. rewrite Hch.
    pose proof (lookup_wf fs item ch Hwf Hch) as Hw.
    apply andb_true_iff in Hw as [Hnd _]. apply names_nodup_NoDup in Hnd.
    apply NoDup_flat_map_disj; [exact Hnd| |].
    + intros n _. destruct (_ && _); repeat constructor. simpl. tauto.
    + intros n n' b _ _ Hb Hb'.
      destruct (_ && _) in Hb; [|contradiction].
      destruct (_ && _) in Hb'; [|contradiction].
      destruct Hb as [<-|[]]. destruct Hb' as [E|[]].
      apply app_inj_tail in E. symmetry. apply E.
  - intros item item' b _ _ Hb Hb'.
    destruct (Hout item b Hb) as [n ->]. destruct (Hout item' _ Hb') as [n' E].
    apply app_inj_tail in E. apply E.
Qed.

Lemma scan_specs_nodup_witness :
  wf_fs fs_two_specs = true /\ NoDup (scan_specs fs_two_specs ["w"]).
Proof.
  assert (H : wf_fs fs_two_specs = true) by reflexivity.
  split; [exact H|]. exact (scan_specs_nodup fs_two_specs ["w"] H).
Defined.

(** ** One heading per spec *)

Lemma spec_heading_is_heading (p : path) : is_spec_heading (spec_heading p) = true.
Proof.
  unfold spec_heading, is_spec_heading. cbv zeta.
  destruct (lastn 3 p) as [|x r]; [reflexivity|].
  destruct (String.concat "/" (x :: r)); reflexivity.
Qed.

Lemma filter_no_heading (ls : list string) :
  Forall (fun l => is_spec_heading l = false) ls -> filter is_spec_heading ls = [].
Proof.
  induction 1 as [|x l Hx _ IH]; simpl; [reflexivity|]. now rewrite Hx.
Qed.

Lemma progress_lines_no_heading (v : json) (pl : list string) :
  progress_lines v = Ok pl -> Forall (fun l => is_spec_heading l = false) pl.
Proof.
  unfold progress_lines. cbv zeta.
  destruct (py_truthy v); [|intros H; injection H as <-; constructor].
  destruct v as [| | | | |o]; try discriminate.
  destruct (py_len (dget o "completed_tasks" (JArr []))) as [nc|x]; [|discriminate].
  destruct (match dget o "status" JNull with JStr s => s =? "blocked" | _ => false end);
  (destruct (py_truthy (dget o "failed_tasks" JNull));
   [destruct (py_len (dget o "failed_tasks" JNull))|]);
  intros H; try discriminate H; injection H as <-; simpl; no_heading.
Qed.

Lemma session_lines_no_heading (v : bool) (log : list string) :
  Forall (fun l => is_spec_heading l = false) (session_lines v log).
Proof.
  unfold session_lines. destruct log; [constructor|]. destruct v; [|constructor].
  constructor; [reflexivity|]. apply Forall_forall. intros l Hl.
  apply in_map_iff in Hl as [x [<- _]]. reflexivity.
Qed.

Lemma git_lines_no_heading (gi : option git_info) :
  Forall (fun l => is_spec_heading l = false) (git_lines gi).
Proof.
  unfold git_lines. destruct gi as [g|]; [|constructor].
  constructor; [reflexivity|]. no_heading.
  - destruct (gi_branch g =? ""); no_heading.
  - destruct (gi_recent_commits g) as [|c0 cs]; [constructor|].
    constructor; [reflexivity|]. apply Forall_forall. intros ln Hln.
    apply in_flat_map in Hln as [c [_ Hln]].
    destruct (strip c =? ""); [contradiction|]. destruct Hln as [<-|[]]. reflexivity.
  - destruct (gi_status g =? ""); no_heading.
Qed.

Lemma resource_lines_no_heading (v : bool) res :
  Forall (fun l => is_spec_heading l = false) (resource_lines v res).
Proof.
  unfold resource_lines. destruct res; [constructor|]. destruct v; [|constructor].
  constructor; [reflexivity|]. apply Forall_forall. intros l Hl.
  apply in_map_iff in Hl as [x [<- _]]. reflexivity.
Qed.

Lemma system_diagnostics_no_heading (sy : system) ls :
  snd (system_diagnostics sy) = Ok ls -> Forall (fun l => is_spec_heading l = false) ls.
Proof.
  unfold system_diagnostics, bind, ret.
  destruct (check_docker_status sy) as [t1 [d|x]]; [|discriminate].
  destruct (check_system_deps sy) as [t2 [deps|x]]; [|discriminate].
  simpl. intros H. injection H as <-. no_heading.
  apply Forall_forall. intros l Hl. unfold dep_lines in Hl.
  apply in_flat_map in Hl as [di [_ Hl]].
  destruct Hl as [<-|Hl]; [reflexivity|].
  destruct (dep_path (snd di) =? ""); [contradiction|].
  destruct Hl as [<-|[]]. reflexivity.
Qed.

Lemma spec_sections_headings (sy : system) (v : bool) (ps : list path) (l : list string) :
  snd (spec_sections sy v ps) = Ok l -> filter is_spec_heading l = map spec_heading ps.
Proof.
  revert l. induction ps as [|p ps IH]; intros l H.
  - simpl in H. injection H as <-. reflexivity.
  - cbn [spec_sections] in H.
    apply bind_ok_inv in H as [l1 [H1 [H2 _]]].
    apply bind_ok_inv in H2 as [l2 [H2 [H3 _]]].
    simpl in H3. injection H3 as <-.
    destruct (spec_section_ok sy v p l1 H1) as [pl [gi [res [Hpl ->]]]].
    cbn [app filter]. rewrite spec_heading_is_heading.
    cbn [map]. f_equal.
    rewrite !filter_app, (IH l2 H2).
    rewrite (filter_no_heading _ (progress_lines_no_heading _ _ Hpl)),
      (filter_no_heading _ (session_lines_no_heading _ _)),
      (filter_no_heading _ (git_lines_no_heading _)),
      (filter_no_heading _ (resource_lines_no_heading _ _)).
    reflexivity.
Qed.

(** Among the lines the report is joined from, the lines that start like a
    spec heading ([\n### ]) are exactly one heading per spec, in the order
    of the spec list: no progress, session, Git, disk-usage or diagnostics
    line starts that way. *)
Theorem format_report_spec_headings (e : env) (specs : list path) (v : bool)
  (lines : list string) :
  snd (format_report_lines e specs v) = Ok lines ->
  filter is_spec_heading lines = map spec_heading specs.
Proof.
  unfold format_report_lines. destruct specs as [|p ps].
  - simpl. intros H. injection H as <-. reflexivity.
  - intros H.
    apply bind_ok_inv in H as [body [Hb [H _]]].
    apply bind_ok_inv in H as [diag [Hd [H _]]].
    simpl in H. injection H as <-.
    unfold header_lines. cbn [app filter].
    replace (is_spec_heading (found_line (length (p :: ps)))) with false by reflexivity.
    rewrite filter_app, (spec_sections_headings _ _ _ _ Hb).
    destruct v.
    + rewrite (filter_no_heading _ (system_diagnostics_no_heading _ _ Hd)).
      simpl. now rewrite app_nil_r.
    + simpl in Hd. injection Hd as <-. simpl. now rewrite app_nil_r.
Qed.

Lemma format_report_spec_headings_witness :
  snd (format_report_lines env_demo [spec_a] true)
    = Ok demo_lines
  /\ filter is_spec_heading demo_lines = [nl ++ "### w/specs/a"].
Proof.
  assert (H : snd (format_report_lines env_demo [spec_a] true) = Ok demo_lines)
    by (vm_compute; reflexivity).
  split; [exact H|].
  rewrite (format_report_spec_headings env_demo [spec_a] true demo_lines H). reflexivity.
Defined.

(** ** When the report is produced *)

Lemma get_git_info_ok (sy : system) (p : path) : exists gi, snd (get_git_info sy p) = Ok gi.
Proof.
  unfold get_git_info. destruct (find_repo_root _ _ _); [destruct (path_exists _ _)|];
    simpl; eauto.
Qed.

Lemma spec_section_ok_iff (sy : system) (v : bool) (p : path) :
  (exists l, snd (spec_section sy v p) = Ok l)
  <-> (exists pl, progress_lines (get_ralph_status sy p) = Ok pl)
      /\ (exists res, snd (get_resource_usage sy p) = Ok res).
Proof.
  destruct (get_git_info_ok sy p) as [gi Hgi].
  unfold spec_section, bind, lift, ret.
  destruct (progress_lines (get_ralph_status sy p)) as [pl|x].
  2: { simpl. split; [intros [l H]; discriminate H|intros [[pl H] _]; discriminate H]. }
  destruct (get_git_info sy p) as [t1 r1]. simpl in Hgi. subst r1.
  destruct (get_resource_usage sy p) as [t2 [res|x]]; simpl.
  - split; eauto.
  - split; [intros [l H]; discriminate H|intros [_ [res H]]; discriminate H].
Qed.

Lemma spec_sections_ok_iff (sy : system) (v : bool) (ps : list path) :
  (exists l, snd (spec_sections sy v ps) = Ok l)
  <-> Forall (fun p => exists l, snd (spec_section sy v p) = Ok l) ps.
Proof.
  induction ps as [|p ps IH]; [simpl; split; eauto|].
  cbn [spec_sections]. rewrite Forall_cons_iff, <- IH.
  unfold bind at 1.
  destruct (spec_section sy v p) as [t1 [l1|x]].
  - unfold bind, ret. destruct (spec_sections sy v ps) as [t2 [l2|x]]; simpl.
    + split; eauto.
    + split; [intros [l H]; discriminate H|intros [_ [l H]]; discriminate H].
  - simpl. split; [intros [l H]; discriminate H|intros [[l H] _]; discriminate H].
Qed.

(** Whether the report is produced is decided spec by spec: it is produced
    exactly when, for every spec, the progress block renders and the
    resource probe succeeds. The session-log and Git probes and the
    workspace-wide probes never fail. *)
Theorem format_report_ok_iff (e : env) (specs : list path) (v : bool) :
  (exists doc, snd (format_report e specs v) = Ok doc)
  <-> Forall (fun p => (exists pl, progress_lines (get_ralph_status (env_sys e) p) = Ok pl)
                      /\ exists res, snd (get_resource_usage (env_sys e) p) = Ok res) specs.
Proof.
  assert (Hf : Forall (fun p => exists l, snd (spec_section (env_sys e) v p) = Ok l) specs
                <-> Forall (fun p => (exists pl, progress_lines (get_ralph_status (env_sys e) p) = Ok pl)
                      /\ exists res, snd (get_resource_usage (env_sys e) p) = Ok res) specs).
  { rewrite !Forall_forall. split; intros H p Hp.
    - apply (proj1 (spec_section_ok_iff (env_sys e) v p)). auto.
    - apply (proj2 (spec_section_ok_iff (env_sys e) v p)). auto. }
  rewrite <- Hf, <- spec_sections_ok_iff.
  unfold format_report, format_report_lines.
  destruct specs as [|p ps]; [simpl; split; eauto|].
  destruct (system_diagnostics_trace (env_sys e)) as [_ [diag Hd]].
  unfold bind at 2 3.
  destruct (spec_sections (env_sys e) v (p :: ps)) as [t [l|x]].
  - destruct (if v then system_diagnostics (env_sys e) else ret []) as [t2 [dl|x]] eqn:E.
    + simpl. split; eauto.
    + destruct v; [rewrite E in Hd; discriminate Hd|discriminate E].
  - simpl. split; [intros [d H]; discriminate H|intros [l H]; discriminate H].
Qed.
